(** * Windows-Font-Changer: the registry font manager

    A shallow embedding of [windows_font_changer/font_manager.py] and the
    properties of its five registry operations: [get_current_font],
    [backup_current_settings], [change_font], [restore_default_font] and
    [create_reg_file]; then [get_system_fonts] and the two callers in
    [ui.py] that use the results.

    Python [str] values are modelled as [string]: sequences of code points
    below 256.  The Windows registry and the file system are an explicit
    [World] that every operation threads through; the calls made to
    [winreg] and to [Path.write_text] are recorded in order, and every
    such call may fail with an exception chosen by the world. *)

From Stdlib.Strings Require Import String Ascii Byte.
From Stdlib Require Import List Bool Arith Lia.
From Stdlib Require Import Sorted Permutation.
From stdpp Require Import base option gmap strings fin_maps.
Import ListNotations.

Open Scope string_scope.
Open Scope list_scope.

(** ** Python strings *)

Module Str.

(** [sub in s] on [str]. *)
Fixpoint contains (sub s : string) : bool :=
  if String.prefix sub s then true
  else match s with
       | EmptyString => false
       | String _ s' => contains sub s'
       end.

(** [sep.join(l)]. *)
Definition join (sep : string) (l : list string) : string :=
  String.concat sep l.

(** Number of occurrences of the character [c]. *)
Fixpoint count (c : ascii) (s : string) : nat :=
  match s with
  | EmptyString => 0
  | String a s' => (if Ascii.eqb a c then 1 else 0) + count c s'
  end.

Definition quote : ascii := ascii_of_nat 34.
Definition LF : ascii := ascii_of_nat 10.
Definition CR : ascii := ascii_of_nat 13.

(** [s] between two double-quote characters, as the f-strings write it. *)
Definition quoted (s : string) : string :=
  String quote (s +:+ String quote EmptyString).

(** Text-mode output on Windows ([newline=None]): every line feed written
    becomes [os.linesep], carriage return then line feed. *)
Fixpoint os_newlines (s : string) : string :=
  match s with
  | EmptyString => EmptyString
  | String a s' =>
      if Ascii.eqb a LF then String CR (String LF (os_newlines s'))
      else String a (os_newlines s')
  end.

(** The [utf-16-le] codec on code points below 256: the code point's byte,
    then a zero byte. *)
Fixpoint utf_16_le (s : string) : list byte :=
  match s with
  | EmptyString => []
  | String a s' => byte_of_ascii a :: x00 :: utf_16_le s'
  end.

Fixpoint utf_16_le_decode (bs : list byte) : option string :=
  match bs with
  | [] => Some EmptyString
  | b :: x00 :: bs' =>
      match utf_16_le_decode bs' with
      | Some s => Some (String (ascii_of_byte b) s)
      | None => None
      end
  | _ => None
  end.

End Str.

(** ** The world: registry, files, failures *)

Definition Path := string.

(** The exceptions the code tells apart; [str(e)] is the description. *)
Inductive exn : Type :=
| FileNotFoundError (desc : string)
| PermissionError (desc : string)
| OtherException (desc : string).

Definition str_exn (e : exn) : string :=
  match e with
  | FileNotFoundError d | PermissionError d | OtherException d => d
  end.

Inductive Access : Type := KEY_READ | KEY_SET_VALUE.

(** An open [HKEY_LOCAL_MACHINE] sub-key handle. *)
Record HKEY : Type := { hpath : string; haccess : Access }.

(** The calls that reach the operating system.  [write_text] reaches it
    twice: [write_text_call] is the call itself, answered when the file is
    opened; [write_bytes_call path offset] is the transfer to the opened
    file of the byte at [offset] (at the length of the data: the flush
    when the file is closed).  Only the first is logged. *)
Inductive Call : Type :=
| OpenKey_call (sub_key : string) (access : Access)
| CloseKey_call (sub_key : string)
| QueryValueEx_call (sub_key name : string)
| SetValueEx_call (sub_key name data : string)
| DeleteValue_call (sub_key name : string)
| write_text_call (path : Path) (data : string)
| write_bytes_call (path : Path) (offset : nat).

Definition is_registry_call (c : Call) : bool :=
  match c with
  | write_text_call _ _ | write_bytes_call _ _ => false
  | _ => true
  end.

Record World : Type := {
  (** [HKEY_LOCAL_MACHINE]: sub-key path to its string values *)
  registry : gmap string (gmap string string);
  (** file contents by path *)
  files : gmap string (list byte);
  (** the failure, if any, that the system answers a call with *)
  faults : Call -> option exn;
  (** the calls made so far, oldest first *)
  calls : list Call
}.

Definition set_registry (r : gmap string (gmap string string)) (w : World) : World :=
  {| registry := r; files := files w; faults := faults w; calls := calls w |}.

Definition set_files (f : gmap string (list byte)) (w : World) : World :=
  {| registry := registry w; files := f; faults := faults w; calls := calls w |}.

Definition record (c : Call) (w : World) : World :=
  {| registry := registry w; files := files w; faults := faults w;
     calls := calls w ++ [c] |}.

(** ** Computations that may raise *)

Inductive Result (A : Type) : Type :=
| Ok (a : A)
| Raise (e : exn).
Arguments Ok {A} a.
Arguments Raise {A} e.

Definition M (A : Type) : Type := World -> Result A * World.

Definition ret {A} (a : A) : M A := fun w => (Ok a, w).

Definition raise {A} (e : exn) : M A := fun w => (Raise e, w).

Definition bind {A B} (m : M A) (k : A -> M B) : M B :=
  fun w =>
    match m w with
    | (Ok a, w') => k a w'
    | (Raise e, w') => (Raise e, w')
    end.

Notation "'let*' x ':=' m 'in' k" := (bind m (fun x => k))
  (at level 10, x name, m at level 100, k at level 200).

(** [try: m except e: h e]. *)
Definition try_except {A} (m : M A) (h : exn -> M A) : M A :=
  fun w =>
    match m w with
    | (Ok a, w') => (Ok a, w')
    | (Raise e, w') => h e w'
    end.

(** [try: m finally: f]. *)
Definition try_finally {A} (m : M A) (f : M unit) : M A :=
  fun w =>
    match m w with
    | (r, w') =>
        match f w' with
        | (Ok _, w'') => (r, w'')
        | (Raise e, w'') => (Raise e, w'')
        end
    end.

(** [for x in l: body x]. *)
Fixpoint for_each {A} (l : list A) (body : A -> M unit) : M unit :=
  match l with
  | [] => ret tt
  | x :: l' => let* _ := body x in for_each l' body
  end.

(** ** The [winreg] and [pathlib] calls *)

Module winreg.

Definition access_eqb (a b : Access) : bool :=
  match a, b with
  | KEY_READ, KEY_READ | KEY_SET_VALUE, KEY_SET_VALUE => true
  | _, _ => false
  end.

(** [winreg.OpenKey(HKEY_LOCAL_MACHINE, sub_key, 0, access)]. *)
Definition OpenKey (sub_key : string) (access : Access) : M HKEY :=
  fun w =>
    let w := record (OpenKey_call sub_key access) w in
    match faults w (OpenKey_call sub_key access) with
    | Some e => (Raise e, w)
    | None =>
        match registry w !! sub_key with
        | None => (Raise (FileNotFoundError "The system cannot find the file specified"), w)
        | Some _ => (Ok {| hpath := sub_key; haccess := access |}, w)
        end
    end.

(** Leaving the [with] block closes the handle. *)
Definition CloseKey (key : HKEY) : M unit :=
  fun w => (Ok tt, record (CloseKey_call (hpath key)) w).

(** [winreg.QueryValueEx(key, name)]: the value's data. *)
Definition QueryValueEx (key : HKEY) (name : string) : M string :=
  fun w =>
    let w := record (QueryValueEx_call (hpath key) name) w in
    match faults w (QueryValueEx_call (hpath key) name) with
    | Some e => (Raise e, w)
    | None =>
        if access_eqb (haccess key) KEY_READ then
          match registry w !! hpath key ≫= (fun vs => vs !! name) with
          | Some v => (Ok v, w)
          | None => (Raise (FileNotFoundError "The system cannot find the file specified"), w)
          end
        else (Raise (PermissionError "Access is denied"), w)
    end.

(** [winreg.SetValueEx(key, name, 0, REG_SZ, data)]. *)
Definition SetValueEx (key : HKEY) (name data : string) : M unit :=
  fun w =>
    let w := record (SetValueEx_call (hpath key) name data) w in
    match faults w (SetValueEx_call (hpath key) name data) with
    | Some e => (Raise e, w)
    | None =>
        if access_eqb (haccess key) KEY_SET_VALUE then
          match registry w !! hpath key with
          | Some vs =>
              (Ok tt, set_registry (<[hpath key := <[name := data]> vs]> (registry w)) w)
          | None => (Raise (FileNotFoundError "The system cannot find the file specified"), w)
          end
        else (Raise (PermissionError "Access is denied"), w)
    end.

(** [winreg.DeleteValue(key, name)]. *)
Definition DeleteValue (key : HKEY) (name : string) : M unit :=
  fun w =>
    let w := record (DeleteValue_call (hpath key) name) w in
    match faults w (DeleteValue_call (hpath key) name) with
    | Some e => (Raise e, w)
    | None =>
        if access_eqb (haccess key) KEY_SET_VALUE then
          match registry w !! hpath key with
          | Some vs =>
              match vs !! name with
              | Some _ =>
                  (Ok tt, set_registry (<[hpath key := delete name vs]> (registry w)) w)
              | None => (Raise (FileNotFoundError "The system cannot find the file specified"), w)
              end
          | None => (Raise (FileNotFoundError "The system cannot find the file specified"), w)
          end
        else (Raise (PermissionError "Access is denied"), w)
    end.

(** [with winreg.OpenKey(...) as key: body key]. *)
Definition with_OpenKey {A} (sub_key : string) (access : Access)
    (body : HKEY -> M A) : M A :=
  let* key := OpenKey sub_key access in
  try_finally (body key) (CloseKey key).

End winreg.

(** The bytes that reach a file opened for writing, from [offset] on, and
    the failure that stops them, if any: what was written before the
    failure stays in the file. *)
Fixpoint write_bytes (f : Call -> option exn) (path : Path) (offset : nat)
    (bytes : list byte) : option exn * list byte :=
  match f (write_bytes_call path offset) with
  | Some e => (Some e, [])
  | None =>
      match bytes with
      | [] => (None, [])
      | b :: bytes' =>
          match write_bytes f path (S offset) bytes' with
          | (r, written) => (r, b :: written)
          end
      end
  end.

(** [path.write_text(data, encoding="utf-16-le")], that is
    [with path.open(mode="w", ...) as f: f.write(data)].  When the open is
    refused the file is as it was.  Otherwise the open has created the file
    or emptied it, and the file holds the encoded text, or, when the
    transfer fails, the part of it written before the failure. *)
Definition write_text (path : Path) (data : string) : M unit :=
  fun w =>
    let w := record (write_text_call path data) w in
    match faults w (write_text_call path data) with
    | Some e => (Raise e, w)
    | None =>
        match write_bytes (faults w) path 0 (Str.utf_16_le (Str.os_newlines data)) with
        | (Some e, written) => (Raise e, set_files (<[path := written]> (files w)) w)
        | (None, written) => (Ok tt, set_files (<[path := written]> (files w)) w)
        end
    end.

(** ** [class FontManager] *)

Definition FONTS_KEY_PATH : string :=
  "SOFTWARE\Microsoft\Windows NT\CurrentVersion\Fonts".

Definition FONT_SUBSTITUTES_KEY_PATH : string :=
  "SOFTWARE\Microsoft\Windows NT\CurrentVersion\FontSubstitutes".

(** The dictionary literal, in its insertion order (the order in which
    [for ... in SEGOE_UI_FONTS] visits it). *)
Definition SEGOE_UI_FONTS : list (string * string) :=
  [ ("Segoe UI (TrueType)", "segoeui.ttf");
    ("Segoe UI Bold (TrueType)", "segoeuib.ttf");
    ("Segoe UI Bold Italic (TrueType)", "segoeuiz.ttf");
    ("Segoe UI Italic (TrueType)", "segoeuii.ttf");
    ("Segoe UI Light (TrueType)", "segoeuil.ttf");
    ("Segoe UI Semibold (TrueType)", "seguisb.ttf");
    ("Segoe UI Symbol (TrueType)", "seguisym.ttf");
    ("Segoe UI Black (TrueType)", "seguibl.ttf");
    ("Segoe UI Black Italic (TrueType)", "seguibli.ttf");
    ("Segoe UI Emoji (TrueType)", "seguiemj.ttf");
    ("Segoe UI Historic (TrueType)", "seguihis.ttf");
    ("Segoe UI Light Italic (TrueType)", "seguili.ttf");
    ("Segoe UI Semibold Italic (TrueType)", "seguisbi.ttf");
    ("Segoe UI Semilight (TrueType)", "segoeuisl.ttf");
    ("Segoe UI Semilight Italic (TrueType)", "seguisli.ttf");
    ("Segoe MDL2 Assets (TrueType)", "segmdl2.ttf");
    ("Segoe Print (TrueType)", "segoepr.ttf");
    ("Segoe Print Bold (TrueType)", "segoeprb.ttf");
    ("Segoe Script (TrueType)", "segoesc.ttf");
    ("Segoe Script Bold (TrueType)", "segoescb.ttf") ].

(** The instance: [self._backup_file]. *)
Record FontManager : Type := { _backup_file : Path }.

(** Truth value of an [Optional[str]]: [None] and the empty string are false. *)
Definition truthy (v : option string) : bool :=
  match v with
  | Some (String _ _) => true
  | _ => false
  end.

Definition get_current_font (self : FontManager) : M (option string) :=
  try_except
    (winreg.with_OpenKey FONT_SUBSTITUTES_KEY_PATH KEY_READ (fun key =>
       try_except
         (let* value := winreg.QueryValueEx key "Segoe UI" in
          ret (Some value))
         (fun e => match e with
                   | FileNotFoundError _ => ret None
                   | _ => raise e
                   end)))
    (fun _ => ret None).

(** The [try] block of the backup: the table's lines are appended inside
    the [with] block, so only once the Fonts key has been opened; any
    exception leaves [backup_content] as it is. *)
Definition backup_fonts_section (backup_content : list string) : M (list string) :=
  try_except
    (winreg.with_OpenKey FONTS_KEY_PATH KEY_READ (fun key =>
       ret (fold_left
              (fun content '(name, file) =>
                 content ++ [Str.quoted name +:+ "=" +:+ Str.quoted file])
              SEGOE_UI_FONTS backup_content)))
    (fun _ => ret backup_content).

(** The last line of the backup. *)
Definition backup_substitute_line (current_font : option string) : string :=
  if truthy current_font then
    Str.quoted "Segoe UI" +:+ "=" +:+ Str.quoted (default EmptyString current_font)
  else
    Str.quoted "Segoe UI" +:+ "=-".

Definition backup_current_settings (self : FontManager) : M unit :=
  let backup_content := ["Windows Registry Editor Version 5.00"; ""] in
  (* Backup Fonts key *)
  let backup_content :=
    backup_content ++ ["[HKEY_LOCAL_MACHINE\" +:+ FONTS_KEY_PATH +:+ "]"] in
  let* backup_content := backup_fonts_section backup_content in
  let backup_content := backup_content ++ [""] in
  (* Backup FontSubstitutes key *)
  let backup_content :=
    backup_content ++ ["[HKEY_LOCAL_MACHINE\" +:+ FONT_SUBSTITUTES_KEY_PATH +:+ "]"] in
  let* current_font := get_current_font self in
  let backup_content := backup_content ++ [backup_substitute_line current_font] in
  (* Write backup file *)
  write_text (_backup_file self) (Str.join (String Str.LF "") backup_content).

(** The [try] block of [change_font]. *)
Definition change_font_try (self : FontManager) (font_name : string) : M (bool * string) :=
  (* First, backup current settings *)
  let* _ := backup_current_settings self in
  (* Clear Segoe UI font mappings *)
  let* _ :=
    winreg.with_OpenKey FONTS_KEY_PATH KEY_SET_VALUE (fun key =>
      for_each (map fst SEGOE_UI_FONTS) (fun font_entry =>
        if Str.contains "Segoe UI" font_entry
        then winreg.SetValueEx key font_entry ""
        else ret tt)) in
  (* Set font substitution *)
  let* _ :=
    winreg.with_OpenKey FONT_SUBSTITUTES_KEY_PATH KEY_SET_VALUE (fun key =>
      winreg.SetValueEx key "Segoe UI" font_name) in
  ret (true,
       "Font changed to " +:+ font_name +:+
       ". Please restart Windows to apply changes.").

Definition change_font (self : FontManager) (font_name : string) : M (bool * string) :=
  try_except
    (change_font_try self font_name)
    (fun e =>
       match e with
       | PermissionError _ =>
           ret (false, "Permission denied. Please run as administrator.")
       | _ => ret (false, "Error changing font: " +:+ str_exn e)
       end).

(** The [try] block of [restore_default_font]. *)
Definition restore_default_font_try (self : FontManager) : M (bool * string) :=
  (* Restore Segoe UI font mappings *)
  let* _ :=
    winreg.with_OpenKey FONTS_KEY_PATH KEY_SET_VALUE (fun key =>
      for_each SEGOE_UI_FONTS (fun '(font_entry, font_file) =>
        winreg.SetValueEx key font_entry font_file)) in
  (* Remove font substitution *)
  let* _ :=
    winreg.with_OpenKey FONT_SUBSTITUTES_KEY_PATH KEY_SET_VALUE (fun key =>
      try_except
        (winreg.DeleteValue key "Segoe UI")
        (fun e => match e with
                  | FileNotFoundError _ => ret tt (* the value does not exist, which is fine *)
                  | _ => raise e
                  end)) in
  ret (true, "Default font restored. Please restart Windows to apply changes.").

Definition restore_default_font (self : FontManager) : M (bool * string) :=
  try_except
    (restore_default_font_try self)
    (fun e =>
       match e with
       | PermissionError _ =>
           ret (false, "Permission denied. Please run as administrator.")
       | _ => ret (false, "Error restoring default font: " +:+ str_exn e)
       end).

(** The lines [create_reg_file] joins. *)
Definition reg_content (font_name : string) : list string :=
  let reg_content :=
    [ "Windows Registry Editor Version 5.00";
      "";
      "[HKEY_LOCAL_MACHINE\" +:+ FONTS_KEY_PATH +:+ "]" ] in
  (* Add entries to clear Segoe UI fonts *)
  let reg_content :=
    fold_left
      (fun content font_entry =>
         if Str.contains "Segoe UI" font_entry
         then content ++ [Str.quoted font_entry +:+ "=" +:+ Str.quoted ""]
         else content)
      (map fst SEGOE_UI_FONTS) reg_content in
  reg_content ++
    [ "";
      "[HKEY_LOCAL_MACHINE\" +:+ FONT_SUBSTITUTES_KEY_PATH +:+ "]";
      Str.quoted "Segoe UI" +:+ "=" +:+ Str.quoted font_name ].

Definition create_reg_file (self : FontManager) (font_name : string)
    (output_path : Path) : M unit :=
  write_text output_path (Str.join (String Str.LF "") (reg_content font_name)).

(** ** Sample worlds *)

Definition no_faults : Call -> option exn := fun _ => None.

Definition self0 : FontManager :=
  {| _backup_file := "C:\Users\me\.windows_font_changer_backup.reg" |}.

(** Both keys exist; no override is set. *)
Definition world_default : World :=
  {| registry := {[ FONTS_KEY_PATH := list_to_map SEGOE_UI_FONTS;
                    FONT_SUBSTITUTES_KEY_PATH := ∅ ]};
     files := ∅; faults := no_faults; calls := [] |}.


(** How the system answers a read of the [Segoe UI] substitution value. *)
Inductive ReadOutcome : Type :=
| ValuePresent (value : string)
| ValueAbsent
| KeyMissing
| OpenFailed (e : exn)
| QueryFailed (e : exn).

Definition read_outcome (w : World) : ReadOutcome :=
  match faults w (OpenKey_call FONT_SUBSTITUTES_KEY_PATH KEY_READ) with
  | Some e => OpenFailed e
  | None =>
      match registry w !! FONT_SUBSTITUTES_KEY_PATH with
      | None => KeyMissing
      | Some vs =>
          match faults w (QueryValueEx_call FONT_SUBSTITUTES_KEY_PATH "Segoe UI") with
          | Some e => QueryFailed e
          | None =>
              match vs !! "Segoe UI" with
              | Some v => ValuePresent v
              | None => ValueAbsent
              end
          end
      end
  end.

(** The override in effect: the value when the read succeeds. *)
Definition current_override (w : World) : option string :=
  match read_outcome w with
  | ValuePresent v => Some v
  | _ => None
  end.

(** The calls a read of the override makes. *)
Definition read_calls (w : World) : list Call :=
  match read_outcome w with
  | OpenFailed _ | KeyMissing =>
      [OpenKey_call FONT_SUBSTITUTES_KEY_PATH KEY_READ]
  | _ =>
      [OpenKey_call FONT_SUBSTITUTES_KEY_PATH KEY_READ;
       QueryValueEx_call FONT_SUBSTITUTES_KEY_PATH "Segoe UI";
       CloseKey_call FONT_SUBSTITUTES_KEY_PATH]
  end.

(** [w] after the calls [cs], nothing else changed. *)
Definition after_calls (cs : list Call) (w : World) : World :=
  {| registry := registry w; files := files w; faults := faults w;
     calls := calls w ++ cs |}.

(** Whether [OpenKey] on the Fonts key for reading succeeds. *)
Definition fonts_key_readable (w : World) : bool :=
  match faults w (OpenKey_call FONTS_KEY_PATH KEY_READ) with
  | Some _ => false
  | None =>
      match registry w !! FONTS_KEY_PATH with
      | Some _ => true
      | None => false
      end
  end.

(** The calls the Fonts section of the backup makes. *)
Definition fonts_read_calls (w : World) : list Call :=
  if fonts_key_readable w
  then [OpenKey_call FONTS_KEY_PATH KEY_READ; CloseKey_call FONTS_KEY_PATH]
  else [OpenKey_call FONTS_KEY_PATH KEY_READ].

(** One line per entry of the static table, display name and file name. *)
Definition table_line (entry : string * string) : string :=
  Str.quoted (fst entry) +:+ "=" +:+ Str.quoted (snd entry).

Definition table_lines : list string := map table_line SEGOE_UI_FONTS.

(** The display names the code selects with [if "Segoe UI" in font_entry]. *)
Definition segoe_ui_entries : list string :=
  List.filter (Str.contains "Segoe UI") (map fst SEGOE_UI_FONTS).

(** The line that clears one entry. *)
Definition cleared_line (font_entry : string) : string :=
  Str.quoted font_entry +:+ "=" +:+ Str.quoted "".

Definition header_line : string := "Windows Registry Editor Version 5.00".

Definition fonts_section_line : string :=
  "[HKEY_LOCAL_MACHINE\" +:+ FONTS_KEY_PATH +:+ "]".

Definition substitutes_section_line : string :=
  "[HKEY_LOCAL_MACHINE\" +:+ FONT_SUBSTITUTES_KEY_PATH +:+ "]".

(** The lines of the backup document, by whether the Fonts key could be
    opened and by the override read back. *)
Definition backup_lines (readable : bool) (current_font : option string) : list string :=
  [header_line; ""; fonts_section_line]
  ++ (if readable then table_lines else [])
  ++ [""; substitutes_section_line; backup_substitute_line current_font].

(** The text [backup_current_settings] hands to [write_text] in [w]. *)
Definition backup_document (w : World) : string :=
  Str.join (String Str.LF "")
    (backup_lines (fonts_key_readable w) (current_override w)).

(** The text [create_reg_file] hands to [write_text]. *)
Definition reg_document (font_name : string) : string :=
  Str.join (String Str.LF "") (reg_content font_name).

(** The calls that change the registry, or open a key in order to. *)
Definition is_write_call (c : Call) : bool :=
  match c with
  | OpenKey_call _ KEY_SET_VALUE
  | SetValueEx_call _ _ _
  | DeleteValue_call _ _ => true
  | _ => false
  end.

(** The system refuses no registry write. *)
Definition writes_permitted (w : World) : Prop :=
  forall c, is_write_call c = true -> faults w c = None.

(** The values of a key after [SetValueEx] for each pair, in order. *)
Definition set_values (l : list (string * string)) (vs : gmap string string)
    : gmap string string :=
  fold_left (fun m entry => <[fst entry := snd entry]> m) l vs.

Definition set_calls (sub_key : string) (l : list (string * string)) : list Call :=
  map (fun entry => SetValueEx_call sub_key (fst entry) (snd entry)) l.

(** What [change_font]'s loop writes: the empty string, under every display
    name that contains [Segoe UI]. *)
Definition cleared_entries : list (string * string) :=
  map (fun font_entry => (font_entry, "")) segoe_ui_entries.

(** The registry after a successful [change_font font_name]. *)
Definition changed_registry (font_name : string)
    (r : gmap string (gmap string string)) : gmap string (gmap string string) :=
  let r1 := <[FONTS_KEY_PATH := set_values cleared_entries (default ∅ (r !! FONTS_KEY_PATH))]> r in
  <[FONT_SUBSTITUTES_KEY_PATH :=
      <["Segoe UI" := font_name]> (default ∅ (r1 !! FONT_SUBSTITUTES_KEY_PATH))]> r1.

(** The calls of [change_font font_name] after the backup, when none fails. *)
Definition change_calls (font_name : string) : list Call :=
  [OpenKey_call FONTS_KEY_PATH KEY_SET_VALUE]
  ++ set_calls FONTS_KEY_PATH cleared_entries
  ++ [CloseKey_call FONTS_KEY_PATH;
      OpenKey_call FONT_SUBSTITUTES_KEY_PATH KEY_SET_VALUE;
      SetValueEx_call FONT_SUBSTITUTES_KEY_PATH "Segoe UI" font_name;
      CloseKey_call FONT_SUBSTITUTES_KEY_PATH].

Definition change_font_message (font_name : string) : string :=
  "Font changed to " +:+ font_name +:+ ". Please restart Windows to apply changes.".

Definition permission_message : string :=
  "Permission denied. Please run as administrator.".

(** The system refuses to open any file for writing. *)
Definition read_only_files : Call -> option exn :=
  fun c =>
    match c with
    | write_text_call _ _ => Some (PermissionError "[Errno 13] Permission denied")
    | _ => None
    end.

(** As [world_default], on a file system that refuses every write. *)
Definition world_read_only_files : World :=
  {| registry := registry world_default; files := ∅;
     faults := read_only_files; calls := [] |}.

(** The system refuses to open the FontSubstitutes key for reading. *)
Definition refuse_substitutes_read : Call -> option exn :=
  fun c =>
    match c with
    | OpenKey_call _ KEY_READ => Some (OtherException "Registry error")
    | _ => None
    end.

(** As [world_default], but no key can be opened for reading. *)
Definition world_open_refused : World :=
  {| registry := registry world_default; files := ∅;
     faults := refuse_substitutes_read; calls := [] |}.

(** Both keys exist, and the [Segoe UI] substitution is the empty string. *)
Definition world_empty_override : World :=
  {| registry := {[ FONTS_KEY_PATH := list_to_map SEGOE_UI_FONTS;
                    FONT_SUBSTITUTES_KEY_PATH := {[ "Segoe UI" := "" ]} ]};
     files := ∅; faults := no_faults; calls := [] |}.

(** Both keys exist, and the [Segoe UI] substitution is Arial. *)
Definition world_arial : World :=
  {| registry := {[ FONTS_KEY_PATH := list_to_map SEGOE_UI_FONTS;
                    FONT_SUBSTITUTES_KEY_PATH := {[ "Segoe UI" := "Arial" ]} ]};
     files := ∅; faults := no_faults; calls := [] |}.

(** The directive that deletes the substitution. *)
Definition delete_line : string := Str.quoted "Segoe UI" +:+ "=-".

(** The line that sets the substitution to [font_name]. *)
Definition substitute_line (font_name : string) : string :=
  Str.quoted "Segoe UI" +:+ "=" +:+ Str.quoted font_name.

(** A font name with one double-quote character in it. *)
Definition quote_font : string := String "a" (String Str.quote "b").

(** The registry after a successful [restore_default_font]. *)
Definition restored_registry (r : gmap string (gmap string string))
    : gmap string (gmap string string) :=
  let r1 := <[FONTS_KEY_PATH := set_values SEGOE_UI_FONTS (default ∅ (r !! FONTS_KEY_PATH))]> r in
  <[FONT_SUBSTITUTES_KEY_PATH :=
      delete "Segoe UI" (default ∅ (r1 !! FONT_SUBSTITUTES_KEY_PATH))]> r1.

(** The calls of [restore_default_font] when none is refused. *)
Definition restore_calls : list Call :=
  [OpenKey_call FONTS_KEY_PATH KEY_SET_VALUE]
  ++ set_calls FONTS_KEY_PATH SEGOE_UI_FONTS
  ++ [CloseKey_call FONTS_KEY_PATH;
      OpenKey_call FONT_SUBSTITUTES_KEY_PATH KEY_SET_VALUE;
      DeleteValue_call FONT_SUBSTITUTES_KEY_PATH "Segoe UI";
      CloseKey_call FONT_SUBSTITUTES_KEY_PATH].

Definition restore_message : string :=
  "Default font restored. Please restart Windows to apply changes.".


(** ** The rest of the manager, and its callers *)

(** [sorted(l)] on a list of [str]: insertion from the right, by the order of
    the code points; equal names keep their order. *)
Fixpoint insert_sorted (x : string) (l : list string) : list string :=
  match l with
  | [] => [x]
  | y :: l' => if String.leb x y then x :: l else y :: insert_sorted x l'
  end.

Definition sorted (l : list string) : list string :=
  fold_right insert_sorted [] l.

(** [get_system_fonts]: the families the font database answers, sorted. *)
Definition get_system_fonts (self : FontManager) (families : list string)
    : list string :=
  sorted families.

(** [FontChangeWorker.run] of [ui.py]: the result it emits. *)
Definition worker_run (font_manager : FontManager) (font_name : string)
    (restore : bool) : M (bool * string) :=
  if restore
  then restore_default_font font_manager
  else change_font font_manager font_name.

(** [FontChangerUI.update_current_font_label] of [ui.py]: the text it sets. *)
Definition update_current_font_label (font_manager : FontManager) : M string :=
  let* current_font := get_current_font font_manager in
  if truthy current_font
  then ret ("Current system font: " +:+ default EmptyString current_font)
  else ret "Current system font: Segoe UI (Default)".


(** The system refuses nothing. *)
Definition nothing_refused (w : World) : Prop := forall c, faults w c = None.

(** [w'] is [w] after registry calls only: same files, same failures, and
    the calls added are all registry calls. *)
Definition registry_calls_only (w w' : World) : Prop :=
  files w' = files w
  /\ faults w' = faults w
  /\ exists cs, calls w' = calls w ++ cs /\ forallb is_registry_call cs = true.

(** [w'] differs from [w] in the registry at most under the two font keys. *)
Definition other_keys_kept (w w' : World) : Prop :=
  forall sub_key,
    sub_key <> FONTS_KEY_PATH ->
    sub_key <> FONT_SUBSTITUTES_KEY_PATH ->
    registry w' !! sub_key = registry w !! sub_key.

(** The system refuses to open the Fonts key for writing. *)
Definition fonts_write_denied : Call -> option exn :=
  fun c =>
    match c with
    | OpenKey_call _ KEY_SET_VALUE => Some (PermissionError "[WinError 5] Access is denied")
    | _ => None
    end.

Definition world_write_denied : World :=
  {| registry := registry world_default; files := ∅;
     faults := fonts_write_denied; calls := [] |}.

(** Only the Fonts key exists. *)
Definition world_no_substitutes : World :=
  {| registry := {[ FONTS_KEY_PATH := list_to_map SEGOE_UI_FONTS ]};
     files := ∅; faults := no_faults; calls := [] |}.

(** The exception [OpenKey] raises, if any: the one the system answers
    with, or not-found when the key does not exist. *)
Definition open_error (w : World) (sub_key : string) (access : Access) : option exn :=
  match faults w (OpenKey_call sub_key access) with
  | Some e => Some e
  | None =>
      match registry w !! sub_key with
      | Some _ => None
      | None => Some (FileNotFoundError "The system cannot find the file specified")
      end
  end.

(** The message of a failed [change_font]. *)
Definition change_failure_message (e : exn) : string :=
  match e with
  | PermissionError _ => permission_message
  | _ => "Error changing font: " +:+ str_exn e
  end.

(** A computation leaves every world related by [P] to the one it started
    from, whether it returns or raises. *)
Definition keeps {A} (P : World -> World -> Prop) (m : M A) : Prop :=
  forall w, P w (snd (m w)).

(** [w'] has the files of [w], except perhaps the one at [path]. *)
Definition files_kept_except (path : Path) (w w' : World) : Prop :=
  forall p, p <> path -> files w' !! p = files w !! p.

(** * Properties *)

(** ** Strings *)

Section StrFacts.

#[local] Arguments String.append !_ _ / : simpl nomatch.

Lemma prefix_app (a b : string) : String.prefix a (a +:+ b) = true.
Proof.
  induction a as [|c a IH]; simpl.
  - now destruct b.
  - destruct (ascii_dec c c); [exact IH | congruence].
Qed.

Lemma prefix_split (a s : string) :
  String.prefix a s = true -> exists b, s = a +:+ b.
Proof.
  revert s; induction a as [|c a IH]; intros s H.
  - now exists s.
  - destruct s as [|d s]; simpl in H; [discriminate|].
    destruct (ascii_dec c d) as [->|]; [|discriminate].
    destruct (IH _ H) as [b ->]. now exists b.
Qed.

Lemma contains_prefix (sub s : string) :
  String.prefix sub s = true -> Str.contains sub s = true.
Proof. intros H. destruct s; cbn [Str.contains]; now rewrite H. Qed.

Lemma contains_app (sub a b : string) :
  Str.contains sub (a +:+ sub +:+ b) = true.
Proof.
  induction a as [|c a IH].
  - change (EmptyString +:+ sub +:+ b) with (sub +:+ b). apply contains_prefix, prefix_app.
  - change (String c a +:+ sub +:+ b) with (String c (a +:+ sub +:+ b)).
    cbn [Str.contains]. rewrite IH. now destruct (String.prefix _ _).
Qed.

Lemma contains_split (sub s : string) :
  Str.contains sub s = true -> exists a b, s = a +:+ sub +:+ b.
Proof.
  induction s as [|c s IH]; cbn [Str.contains]; intros H.
  - destruct (String.prefix sub EmptyString) eqn:E; [|discriminate].
    destruct (prefix_split _ _ E) as [b Hb]. now exists EmptyString, b.
  - destruct (String.prefix sub (String c s)) eqn:E.
    + destruct (prefix_split _ _ E) as [b Hb]. now exists EmptyString, b.
    + destruct (IH H) as (a & b & ->). now exists (String c a), b.
Qed.

Lemma app_nil_r_str (a : string) : a +:+ EmptyString = a.
Proof. induction a; simpl; congruence. Qed.

Lemma app_assoc_str (a b c : string) : (a +:+ b) +:+ c = a +:+ b +:+ c.
Proof. induction a; simpl; congruence. Qed.

(** A line of a joined document is a substring of it: the test the
    repository's test-suite applies to the text handed to [write_text]. *)
Lemma join_split (sep l : string) (ls : list string) :
  In l ls -> exists a b, Str.join sep ls = a +:+ l +:+ b.
Proof.
  unfold Str.join.
  induction ls as [|x xs IH]; intros H; [destruct H|].
  destruct H as [->|H].
  - destruct xs as [|y ys].
    + exists EmptyString, EmptyString.
      change (EmptyString +:+ l +:+ EmptyString) with (l +:+ EmptyString).
      now rewrite app_nil_r_str.
    + exists EmptyString, (sep +:+ String.concat sep (y :: ys)). reflexivity.
  - destruct xs as [|y ys]; [destruct H|].
    destruct (IH H) as (a & b & E).
    exists (x +:+ sep +:+ a), b.
    change (String.concat sep (x :: y :: ys))
      with (x +:+ sep +:+ String.concat sep (y :: ys)).
    rewrite E, !app_assoc_str. reflexivity.
Qed.

Lemma join_contains (sep l : string) (ls : list string) :
  In l ls -> Str.contains l (Str.join sep ls) = true.
Proof.
  intros H. destruct (join_split sep l ls H) as (a & b & ->).
  apply contains_app.
Qed.

Lemma count_app (c : ascii) (a b : string) :
  Str.count c (a +:+ b) = Str.count c a + Str.count c b.
Proof. induction a; simpl; lia. Qed.

Lemma utf_16_le_roundtrip (s : string) :
  Str.utf_16_le_decode (Str.utf_16_le s) = Some s.
Proof.
  induction s as [|a s IH]; [reflexivity|].
  cbn [Str.utf_16_le Str.utf_16_le_decode]. rewrite IH.
  now rewrite ascii_of_byte_of_ascii.
Qed.

Lemma utf_16_le_length (s : string) :
  length (Str.utf_16_le s) = 2 * String.length s.
Proof. induction s; simpl; lia. Qed.

End StrFacts.

(** ** Running the operations *)

Ltac world_eq :=
  unfold after_calls, record, set_registry, set_files;
  cbn [registry files faults calls];
  rewrite <- ?app_assoc; cbn [app]; try reflexivity.

Lemma get_current_font_run (self : FontManager) (w : World) :
  get_current_font self w
  = (Ok (current_override w), after_calls (read_calls w) w).
Proof.
  unfold get_current_font, current_override, read_calls, read_outcome.
  unfold try_except, winreg.with_OpenKey, bind, try_finally, winreg.OpenKey,
    winreg.QueryValueEx, winreg.CloseKey, ret, raise.
  cbn [faults registry record hpath haccess winreg.access_eqb].
  destruct (faults w (OpenKey_call _ _)) as [e|]; [now world_eq|].
  destruct (registry w !! FONT_SUBSTITUTES_KEY_PATH) as [vs|] eqn:Ekey;
    [|now world_eq].
  cbn [faults registry record hpath haccess winreg.access_eqb].
  rewrite Ekey.
  destruct (faults w (QueryValueEx_call _ _)) as [e|].
  - destruct e; now world_eq.
  - cbn [mbind option_bind].
    destruct (vs !! "Segoe UI") as [v|]; now world_eq.
Qed.

Lemma fold_left_append {A} (line : A -> string) (l : list A) (init : list string) :
  fold_left (fun content x => content ++ [line x]) l init = init ++ map line l.
Proof.
  revert init; induction l as [|x l IH]; intros init; simpl.
  - now rewrite app_nil_r.
  - rewrite IH, <- app_assoc. reflexivity.
Qed.

Lemma fold_left_append_if {A} (p : A -> bool) (line : A -> string)
    (l : list A) (init : list string) :
  fold_left (fun content x => if p x then content ++ [line x] else content) l init
  = init ++ map line (List.filter p l).
Proof.
  revert init; induction l as [|x l IH]; intros init; simpl.
  - now rewrite app_nil_r.
  - rewrite IH. destruct (p x); simpl; [now rewrite <- app_assoc | reflexivity].
Qed.

Lemma write_bytes_accepted (f : Call -> option exn) (path : Path)
    (bytes : list byte) (offset : nat) :
  fst (write_bytes f path offset bytes) = None ->
  snd (write_bytes f path offset bytes) = bytes.
Proof.
  revert offset. induction bytes as [|b bytes IH]; intros offset; cbn [write_bytes].
  - now destruct (f _).
  - destruct (f _); [discriminate|]. specialize (IH (S offset)).
    destruct (write_bytes f path (S offset) bytes) as [r written].
    cbn [fst snd] in *. intros H. now rewrite (IH H).
Qed.

Lemma write_bytes_unrefused (f : Call -> option exn) (path : Path)
    (bytes : list byte) (offset : nat) :
  (forall c, f c = None) ->
  write_bytes f path offset bytes = (None, bytes).
Proof.
  intros Hf. revert offset.
  induction bytes as [|b bytes IH]; intros offset; cbn [write_bytes];
    rewrite Hf; [reflexivity|]. now rewrite IH.
Qed.

(** The outcome of [write_text], read off the two answers of the system. *)
Lemma write_text_run (path : Path) (data : string) (w : World) :
  write_text path data w
  = match faults w (write_text_call path data) with
    | Some e => (Raise e, after_calls [write_text_call path data] w)
    | None =>
        match fst (write_bytes (faults w) path 0 (Str.utf_16_le (Str.os_newlines data))) with
        | Some e =>
            (Raise e,
             set_files
               (<[path := snd (write_bytes (faults w) path 0
                                 (Str.utf_16_le (Str.os_newlines data)))]> (files w))
               (after_calls [write_text_call path data] w))
        | None =>
            (Ok tt,
             set_files (<[path := Str.utf_16_le (Str.os_newlines data)]> (files w))
               (after_calls [write_text_call path data] w))
        end
    end.
Proof.
  unfold write_text. cbn [faults record].
  destruct (faults w _); [reflexivity|].
  pose proof (write_bytes_accepted (faults w) path
                (Str.utf_16_le (Str.os_newlines data)) 0) as Ha.
  destruct (write_bytes _ _ _ _) as [[e|] written]; cbn [fst snd] in *;
    [reflexivity|].
  now rewrite (Ha eq_refl).
Qed.

Lemma backup_fonts_section_run (content : list string) (w : World) :
  backup_fonts_section content w
  = (Ok (content ++ (if fonts_key_readable w then table_lines else [])),
     after_calls (fonts_read_calls w) w).
Proof.
  unfold backup_fonts_section, fonts_read_calls, fonts_key_readable.
  unfold try_except, winreg.with_OpenKey, bind, try_finally, winreg.OpenKey,
    winreg.CloseKey, ret.
  cbn [faults registry record hpath].
  destruct (faults w (OpenKey_call _ _)) as [e|];
    [rewrite app_nil_r; now world_eq|].
  destruct (registry w !! FONTS_KEY_PATH) as [vs|];
    [|rewrite app_nil_r; now world_eq].
  f_equal; [|now world_eq].
  f_equal. unfold table_lines.
  rewrite <- (fold_left_append table_line). reflexivity.
Qed.

Lemma backup_current_settings_run (self : FontManager) (w : World) :
  backup_current_settings self w
  = write_text (_backup_file self) (backup_document w)
      (after_calls (fonts_read_calls w ++ read_calls w) w).
Proof.
  unfold backup_current_settings, bind.
  rewrite backup_fonts_section_run, get_current_font_run.
  unfold backup_document, backup_lines.
  f_equal.
  - f_equal. rewrite <- !app_assoc. reflexivity.
  - world_eq.
Qed.

(** ** Registry writes *)

Lemma keys_differ : FONTS_KEY_PATH <> FONT_SUBSTITUTES_KEY_PATH.
Proof. apply String.eqb_neq. reflexivity. Qed.

Lemma with_OpenKey_run {A} (sub_key : string) (access : Access)
    (body : HKEY -> M A) (w : World) (vs : gmap string string) :
  faults w (OpenKey_call sub_key access) = None ->
  registry w !! sub_key = Some vs ->
  winreg.with_OpenKey sub_key access body w
  = (fst (body {| hpath := sub_key; haccess := access |}
            (after_calls [OpenKey_call sub_key access] w)),
     after_calls [CloseKey_call sub_key]
       (snd (body {| hpath := sub_key; haccess := access |}
               (after_calls [OpenKey_call sub_key access] w)))).
Proof.
  intros Hf Hk.
  unfold winreg.with_OpenKey, bind, winreg.OpenKey, try_finally, winreg.CloseKey.
  cbn [faults registry record hpath]. rewrite Hf, Hk.
  change (record (OpenKey_call sub_key access) w)
    with (after_calls [OpenKey_call sub_key access] w).
  destruct (body _ _) as [r w']. reflexivity.
Qed.

Lemma with_OpenKey_refused {A} (sub_key : string) (access : Access)
    (body : HKEY -> M A) (w : World) (e : exn) :
  faults w (OpenKey_call sub_key access) = Some e ->
  winreg.with_OpenKey sub_key access body w
  = (Raise e, after_calls [OpenKey_call sub_key access] w).
Proof.
  intros Hf.
  unfold winreg.with_OpenKey, bind, winreg.OpenKey.
  cbn [faults registry record hpath]. now rewrite Hf.
Qed.

Lemma SetValueEx_run (key : HKEY) (name data : string) (w : World)
    (vs : gmap string string) :
  haccess key = KEY_SET_VALUE ->
  faults w (SetValueEx_call (hpath key) name data) = None ->
  registry w !! hpath key = Some vs ->
  winreg.SetValueEx key name data w
  = (Ok tt,
     set_registry (<[hpath key := <[name := data]> vs]> (registry w))
       (after_calls [SetValueEx_call (hpath key) name data] w)).
Proof.
  intros Ha Hf Hk. unfold winreg.SetValueEx.
  cbn [faults registry record]. now rewrite Hf, Ha, Hk.
Qed.

Lemma set_loop (key : HKEY) (l : list (string * string)) (w : World)
    (vs : gmap string string) :
  haccess key = KEY_SET_VALUE ->
  writes_permitted w ->
  registry w !! hpath key = Some vs ->
  for_each l (fun entry => winreg.SetValueEx key (fst entry) (snd entry)) w
  = (Ok tt,
     set_registry (<[hpath key := set_values l vs]> (registry w))
       (after_calls (set_calls (hpath key) l) w)).
Proof.
  intros Ha. revert w vs.
  induction l as [|[n d] l IH]; intros w vs Hp Hk.
  - cbn. rewrite (insert_id _ _ _ Hk). destruct w. world_eq.
    now rewrite app_nil_r.
  - cbn [for_each]. unfold bind. cbn [fst snd].
    rewrite (SetValueEx_run key n d w vs Ha (Hp (SetValueEx_call _ _ _) eq_refl) Hk).
    rewrite (IH _ (<[n := d]> vs)).
    + f_equal. unfold set_registry, after_calls; cbn.
      rewrite insert_insert_eq, <- app_assoc. reflexivity.
    + exact Hp.
    + cbn. apply lookup_insert_eq.
Qed.

Lemma for_each_if {A} (p : A -> bool) (body : A -> M unit) (l : list A) (w : World) :
  for_each l (fun x => if p x then body x else ret tt) w
  = for_each (List.filter p l) body w.
Proof.
  revert w; induction l as [|x l IH]; intros w; [reflexivity|].
  cbn [for_each List.filter]. destruct (p x).
  - cbn [for_each]. unfold bind. destruct (body x w) as [[[]|e] w']; [apply IH|reflexivity].
  - unfold bind, ret. apply IH.
Qed.

Lemma for_each_map {A B} (g : A -> B) (body : B -> M unit) (l : list A) (w : World) :
  for_each (map g l) body w = for_each l (fun x => body (g x)) w.
Proof.
  revert w; induction l as [|x l IH]; intros w; [reflexivity|].
  cbn [for_each map]. unfold bind.
  destruct (body (g x) w) as [[[]|e] w']; [apply IH|reflexivity].
Qed.

Lemma cond_set_loop (key : HKEY) (p : string -> bool) (l : list string)
    (w : World) (vs : gmap string string) :
  haccess key = KEY_SET_VALUE ->
  writes_permitted w ->
  registry w !! hpath key = Some vs ->
  for_each l (fun font_entry =>
    if p font_entry
    then winreg.SetValueEx key font_entry ""
    else ret tt) w
  = (Ok tt,
     set_registry
       (<[hpath key :=
            set_values (map (fun font_entry => (font_entry, "")) (List.filter p l)) vs]>
          (registry w))
       (after_calls
          (set_calls (hpath key)
             (map (fun font_entry => (font_entry, "")) (List.filter p l))) w)).
Proof.
  intros Ha Hp Hk.
  rewrite (for_each_if p (fun font_entry => winreg.SetValueEx key font_entry "")).
  etransitivity; [|exact (set_loop key _ w vs Ha Hp Hk)].
  rewrite for_each_map. reflexivity.
Qed.

Lemma clear_loop_run (key : HKEY) (w : World) (vs : gmap string string) :
  haccess key = KEY_SET_VALUE ->
  writes_permitted w ->
  registry w !! hpath key = Some vs ->
  for_each (map fst SEGOE_UI_FONTS) (fun font_entry =>
    if Str.contains "Segoe UI" font_entry
    then winreg.SetValueEx key font_entry ""
    else ret tt) w
  = (Ok tt,
     set_registry (<[hpath key := set_values cleared_entries vs]> (registry w))
       (after_calls (set_calls (hpath key) cleared_entries) w)).
Proof.
  intros Ha Hp Hk. unfold cleared_entries, segoe_ui_entries.
  exact (cond_set_loop key _ _ w vs Ha Hp Hk).
Qed.

Lemma writes_permitted_after (cs : list Call) (w : World) :
  writes_permitted w -> writes_permitted (after_calls cs w).
Proof. intros H c Hc. exact (H c Hc). Qed.

(** The two registry steps of [change_font], from a world where both keys
    exist and no write is refused. *)
Lemma change_registry_run (font_name : string) (w : World)
    (vf vs : gmap string string) :
  writes_permitted w ->
  registry w !! FONTS_KEY_PATH = Some vf ->
  registry w !! FONT_SUBSTITUTES_KEY_PATH = Some vs ->
  (let* _ :=
     winreg.with_OpenKey FONTS_KEY_PATH KEY_SET_VALUE (fun key =>
       for_each (map fst SEGOE_UI_FONTS) (fun font_entry =>
         if Str.contains "Segoe UI" font_entry
         then winreg.SetValueEx key font_entry ""
         else ret tt)) in
   let* _ :=
     winreg.with_OpenKey FONT_SUBSTITUTES_KEY_PATH KEY_SET_VALUE (fun key =>
       winreg.SetValueEx key "Segoe UI" font_name) in
   ret (true,
        "Font changed to " +:+ font_name +:+
        ". Please restart Windows to apply changes.")) w
  = (Ok (true, change_font_message font_name),
     set_registry (changed_registry font_name (registry w))
       (after_calls (change_calls font_name) w)).
Proof.
  intros Hp Hf Hs. unfold bind at 1.
  rewrite (with_OpenKey_run _ _ _ w vf
             (Hp (OpenKey_call FONTS_KEY_PATH KEY_SET_VALUE) eq_refl) Hf).
  rewrite (clear_loop_run {| hpath := FONTS_KEY_PATH; haccess := KEY_SET_VALUE |}
             _ vf eq_refl (writes_permitted_after _ _ Hp) Hf).
  cbn [fst snd]. unfold bind at 1.
  set (w1 := after_calls _ (set_registry _ _)).
  assert (Hs1 : registry w1 !! FONT_SUBSTITUTES_KEY_PATH = Some vs).
  { subst w1; cbn. rewrite lookup_insert_ne by exact keys_differ. exact Hs. }
  rewrite (with_OpenKey_run _ _ _ w1 vs
             (Hp (OpenKey_call FONT_SUBSTITUTES_KEY_PATH KEY_SET_VALUE) eq_refl) Hs1).
  rewrite (SetValueEx_run
             {| hpath := FONT_SUBSTITUTES_KEY_PATH; haccess := KEY_SET_VALUE |}
             "Segoe UI" font_name
             (after_calls [OpenKey_call FONT_SUBSTITUTES_KEY_PATH KEY_SET_VALUE] w1)
             vs eq_refl (Hp (SetValueEx_call _ _ _) eq_refl) Hs1).
  cbn [fst snd]. unfold ret, change_font_message. f_equal.
  unfold changed_registry. rewrite Hf. cbn [default].
  rewrite lookup_insert_ne by exact keys_differ. rewrite Hs. cbn [default].
  subst w1. unfold change_calls. world_eq.
Qed.

(** ** The values written *)

Lemma set_values_cons (entry : string * string) (l : list (string * string))
    (vs : gmap string string) :
  set_values (entry :: l) vs = set_values l (<[fst entry := snd entry]> vs).
Proof. reflexivity. Qed.

Lemma set_values_lookup_other (l : list (string * string)) (vs : gmap string string)
    (name : string) :
  ~ In name (map fst l) -> set_values l vs !! name = vs !! name.
Proof.
  revert vs; induction l as [|[n d] l IH]; intros vs Hn; [reflexivity|].
  rewrite set_values_cons, IH.
  - cbn [fst snd]. apply lookup_insert_ne. intros ->. apply Hn. now left.
  - intros H. apply Hn. now right.
Qed.

Lemma set_values_lookup (l : list (string * string)) (vs : gmap string string)
    (name data : string) :
  NoDup (map fst l) -> In (name, data) l -> set_values l vs !! name = Some data.
Proof.
  revert vs; induction l as [|[n d] l IH]; intros vs Hd Hin; [destruct Hin|].
  rewrite set_values_cons. cbn [map fst] in Hd. inversion Hd as [|? ? Hn Hd']; subst.
  destruct Hin as [E|Hin].
  - injection E as -> ->.
    rewrite set_values_lookup_other by (rewrite <- list_elem_of_In; exact Hn).
    apply lookup_insert_eq.
  - now apply IH.
Qed.

Lemma set_values_idempotent (l : list (string * string)) (vs : gmap string string) :
  NoDup (map fst l) -> set_values l (set_values l vs) = set_values l vs.
Proof.
  intros Hd. apply map_eq. intros name.
  destruct (in_dec string_dec name (map fst l)) as [Hin|Hn].
  - apply in_map_iff in Hin as [[n d] [E Hin]]. cbn in E; subst n.
    now rewrite !(set_values_lookup l _ name d Hd Hin).
  - now rewrite !set_values_lookup_other by exact Hn.
Qed.

Lemma table_names_NoDup : NoDup (map fst SEGOE_UI_FONTS).
Proof. apply (bool_decide_unpack _). vm_compute. reflexivity. Qed.

Lemma cleared_names_NoDup : NoDup (map fst cleared_entries).
Proof. apply (bool_decide_unpack _). vm_compute. reflexivity. Qed.

Lemma cleared_entries_In (font_entry : string) :
  In font_entry (map fst SEGOE_UI_FONTS) ->
  Str.contains "Segoe UI" font_entry = true ->
  In (font_entry, EmptyString) cleared_entries.
Proof.
  intros Hin Hc. unfold cleared_entries, segoe_ui_entries.
  apply in_map_iff. exists font_entry. split; [reflexivity|].
  apply filter_In. now split.
Qed.

Lemma changed_registry_fonts (font_name : string)
    (r : gmap string (gmap string string)) (vf : gmap string string) :
  r !! FONTS_KEY_PATH = Some vf ->
  changed_registry font_name r !! FONTS_KEY_PATH
  = Some (set_values cleared_entries vf).
Proof.
  intros Hf. unfold changed_registry.
  rewrite lookup_insert_ne by (apply not_eq_sym, keys_differ).
  rewrite lookup_insert_eq, Hf. reflexivity.
Qed.

Lemma changed_registry_substitutes (font_name : string)
    (r : gmap string (gmap string string)) (vs : gmap string string) :
  r !! FONT_SUBSTITUTES_KEY_PATH = Some vs ->
  changed_registry font_name r !! FONT_SUBSTITUTES_KEY_PATH
  = Some (<["Segoe UI" := font_name]> vs).
Proof.
  intros Hs. unfold changed_registry.
  rewrite lookup_insert_eq.
  rewrite lookup_insert_ne by exact keys_differ. rewrite Hs. reflexivity.
Qed.

(** ** The sample worlds *)

Lemma world_default_fonts :
  registry world_default !! FONTS_KEY_PATH = Some (list_to_map SEGOE_UI_FONTS).
Proof. unfold world_default. cbn [registry]. apply lookup_insert_eq. Defined.

Lemma world_default_substitutes :
  registry world_default !! FONT_SUBSTITUTES_KEY_PATH = Some ∅.
Proof.
  unfold world_default. cbn [registry].
  rewrite lookup_insert_ne by exact keys_differ. apply lookup_insert_eq.
Defined.

(** ** The backup *)

Lemma backup_result (self : FontManager) (w : World) :
  fst (backup_current_settings self w)
  = match faults w (write_text_call (_backup_file self) (backup_document w)) with
    | Some e => Raise e
    | None =>
        match fst (write_bytes (faults w) (_backup_file self) 0
                     (Str.utf_16_le (Str.os_newlines (backup_document w)))) with
        | Some e => Raise e
        | None => Ok tt
        end
    end.
Proof.
  rewrite backup_current_settings_run, write_text_run. cbn [faults after_calls].
  destruct (faults w _); [reflexivity|]. now destruct (fst (write_bytes _ _ _ _)).
Qed.

Lemma backup_unrefused (self : FontManager) (w : World) :
  (forall c, faults w c = None) ->
  fst (backup_current_settings self w) = Ok tt.
Proof.
  intros Hn. rewrite backup_result, Hn.
  now rewrite (write_bytes_unrefused _ _ _ _ Hn).
Qed.

Lemma backup_registry (self : FontManager) (w : World) :
  registry (snd (backup_current_settings self w)) = registry w.
Proof.
  rewrite backup_current_settings_run, write_text_run. cbn [faults after_calls].
  destruct (faults w _); [reflexivity|]. now destruct (fst (write_bytes _ _ _ _)).
Qed.

Lemma backup_faults (self : FontManager) (w : World) :
  faults (snd (backup_current_settings self w)) = faults w.
Proof.
  rewrite backup_current_settings_run, write_text_run. cbn [faults after_calls].
  destruct (faults w _); [reflexivity|]. now destruct (fst (write_bytes _ _ _ _)).
Qed.

Lemma backup_calls (self : FontManager) (w : World) :
  calls (snd (backup_current_settings self w))
  = calls w ++ fonts_read_calls w ++ read_calls w
    ++ [write_text_call (_backup_file self) (backup_document w)].
Proof.
  rewrite backup_current_settings_run, write_text_run. cbn [faults after_calls].
  destruct (faults w _); [|destruct (fst (write_bytes _ _ _ _))];
    cbn [snd calls set_files after_calls];
    now rewrite <- !app_assoc.
Qed.

Lemma backup_files (self : FontManager) (w : World) :
  files (snd (backup_current_settings self w))
  = match faults w (write_text_call (_backup_file self) (backup_document w)) with
    | Some _ => files w
    | None =>
        match fst (write_bytes (faults w) (_backup_file self) 0
                     (Str.utf_16_le (Str.os_newlines (backup_document w)))) with
        | Some _ =>
            <[_backup_file self :=
                snd (write_bytes (faults w) (_backup_file self) 0
                       (Str.utf_16_le (Str.os_newlines (backup_document w))))]>
              (files w)
        | None =>
            <[_backup_file self := Str.utf_16_le (Str.os_newlines (backup_document w))]>
              (files w)
        end
    end.
Proof.
  rewrite backup_current_settings_run, write_text_run. cbn [faults after_calls].
  destruct (faults w _); [reflexivity|]. now destruct (fst (write_bytes _ _ _ _)).
Qed.

Lemma backup_other_files (self : FontManager) (w : World) :
  delete (_backup_file self) (files (snd (backup_current_settings self w)))
  = delete (_backup_file self) (files w).
Proof.
  rewrite backup_files.
  destruct (faults w _); [reflexivity|].
  destruct (fst (write_bytes _ _ _ _)); apply delete_insert_eq.
Qed.

(** ** [change_font] *)

Lemma change_font_message_names (font_name : string) :
  Str.contains font_name (change_font_message font_name) = true
  /\ Str.contains "restart Windows" (change_font_message font_name) = true.
Proof.
  unfold change_font_message. split; [apply contains_app|].
  change (". Please restart Windows to apply changes.")
    with (". Please " +:+ "restart Windows" +:+ " to apply changes.").
  rewrite <- (app_assoc_str font_name), <- (app_assoc_str "Font changed to ").
  apply contains_app.
Qed.

Lemma change_font_success (self : FontManager) (font_name : string) (w : World)
    (vf vs : gmap string string) :
  fst (backup_current_settings self w) = Ok tt ->
  writes_permitted w ->
  registry w !! FONTS_KEY_PATH = Some vf ->
  registry w !! FONT_SUBSTITUTES_KEY_PATH = Some vs ->
  change_font self font_name w
  = (Ok (true, change_font_message font_name),
     set_registry (changed_registry font_name (registry w))
       (after_calls (change_calls font_name)
          (snd (backup_current_settings self w)))).
Proof.
  intros Hb Hp Hf Hs.
  unfold change_font, try_except, change_font_try. unfold bind at 1.
  destruct (backup_current_settings self w) as [r wb] eqn:E.
  cbn [fst snd] in *. subst r.
  assert (Hr : registry wb = registry w)
    by (rewrite <- (backup_registry self w), E; reflexivity).
  assert (Hfa : faults wb = faults w)
    by (rewrite <- (backup_faults self w), E; reflexivity).
  rewrite (change_registry_run font_name wb vf vs).
  - now rewrite Hr.
  - intros c Hc. rewrite Hfa. now apply Hp.
  - now rewrite Hr.
  - now rewrite Hr.
Qed.

Lemma change_font_backup_failed (self : FontManager) (font_name : string)
    (w : World) (e : exn) :
  fst (backup_current_settings self w) = Raise e ->
  change_font self font_name w
  = (Ok (false,
         match e with
         | PermissionError _ => permission_message
         | _ => "Error changing font: " +:+ str_exn e
         end),
     snd (backup_current_settings self w)).
Proof.
  intros Hb.
  unfold change_font, try_except, change_font_try. unfold bind at 1.
  destruct (backup_current_settings self w) as [r wb].
  cbn [fst snd] in *. subst r. now destruct e.
Qed.

(** C1.  [change_font] first takes the backup, by calls that change no
    registry value and end with the write of the backup file.  If the
    backup raises, the result is a failure and nothing more is called: the
    world is the one the backup attempt left.  Otherwise, when both keys
    exist and no registry write is refused, the Fonts key is opened for
    writing, every table entry whose display name contains [Segoe UI] is
    set to the empty string, then the FontSubstitutes key is opened and
    its [Segoe UI] value set to the font name, and the result is success
    with a message that names the font and asks for a restart. *)
Theorem change_font_steps (self : FontManager) (font_name : string) (w : World) :
  let backup := backup_current_settings self w in
  registry (snd backup) = registry w
  /\ calls (snd backup)
     = calls w ++ fonts_read_calls w ++ read_calls w
       ++ [write_text_call (_backup_file self) (backup_document w)]
  /\ (forall e, fst backup = Raise e ->
        exists message,
          change_font self font_name w = (Ok (false, message), snd backup))
  /\ (forall vf vs,
        fst backup = Ok tt ->
        writes_permitted w ->
        registry w !! FONTS_KEY_PATH = Some vf ->
        registry w !! FONT_SUBSTITUTES_KEY_PATH = Some vs ->
        change_font self font_name w
        = (Ok (true, change_font_message font_name),
           set_registry (changed_registry font_name (registry w))
             (after_calls (change_calls font_name) (snd backup)))
        /\ changed_registry font_name (registry w) !! FONTS_KEY_PATH
           = Some (set_values cleared_entries vf)
        /\ (forall font_entry,
              In font_entry (map fst SEGOE_UI_FONTS) ->
              Str.contains "Segoe UI" font_entry = true ->
              set_values cleared_entries vf !! font_entry = Some EmptyString)
        /\ changed_registry font_name (registry w) !! FONT_SUBSTITUTES_KEY_PATH
           = Some (<["Segoe UI" := font_name]> vs)
        /\ Str.contains font_name (change_font_message font_name) = true
        /\ Str.contains "restart Windows" (change_font_message font_name) = true).
Proof.
  cbv zeta. split; [apply backup_registry|].
  split; [apply backup_calls|].
  split.
  - intros e He. eexists. exact (change_font_backup_failed self font_name w e He).
  - intros vf vs Hb Hp Hf Hs.
    split; [now apply (change_font_success self font_name w vf vs)|].
    split; [now apply changed_registry_fonts|].
    split.
    + intros font_entry Hin Hc.
      apply set_values_lookup; [apply cleared_names_NoDup|].
      now apply cleared_entries_In.
    + split; [now apply changed_registry_substitutes|].
      apply change_font_message_names.
Qed.

Lemma change_font_steps_witness :
  (exists message,
     change_font self0 "Arial" world_read_only_files
     = (Ok (false, message),
        snd (backup_current_settings self0 world_read_only_files)))
  /\ change_font self0 "Arial" world_default
     = (Ok (true, change_font_message "Arial"),
        set_registry (changed_registry "Arial" (registry world_default))
          (after_calls (change_calls "Arial")
             (snd (backup_current_settings self0 world_default)))).
Proof.
  split.
  - destruct (change_font_steps self0 "Arial" world_read_only_files)
      as (_ & _ & H & _).
    apply (H (PermissionError "[Errno 13] Permission denied")).
    rewrite backup_result. reflexivity.
  - destruct (change_font_steps self0 "Arial" world_default) as (_ & _ & _ & H).
    apply (H (list_to_map SEGOE_UI_FONTS) ∅).
    + rewrite backup_result. reflexivity.
    + intros c _. reflexivity.
    + exact world_default_fonts.
    + exact world_default_substitutes.
Defined.

Lemma read_outcome_default : read_outcome world_default = ValueAbsent.
Proof.
  unfold read_outcome. rewrite world_default_substitutes.
  cbn [faults world_default no_faults]. now rewrite lookup_empty.
Defined.

Lemma read_outcome_open_refused :
  read_outcome world_open_refused = OpenFailed (OtherException "Registry error").
Proof. reflexivity. Defined.

(** ** [get_current_font] *)

(** C3.  [get_current_font] never raises.  Whatever makes the read of the
    [Segoe UI] substitution value fail (the open refused with any
    exception, the key missing, the query refused with any exception, the
    value absent), the result is [None]; when the value is present the
    result is the value.  The registry and the files are left as they
    were. *)
Theorem get_current_font_never_raises (self : FontManager) (w : World) :
  fst (get_current_font self w)
  = Ok match read_outcome w with
       | ValuePresent value => Some value
       | ValueAbsent | KeyMissing | OpenFailed _ | QueryFailed _ => None
       end
  /\ registry (snd (get_current_font self w)) = registry w
  /\ files (snd (get_current_font self w)) = files w.
Proof. rewrite get_current_font_run. repeat split. Qed.

(** C9, the claim as stated is false: the result when the key cannot be
    opened and the result when the key opens and the value is not found are
    the same [None]. *)
Lemma get_current_font_indistinguishable :
  read_outcome world_open_refused = OpenFailed (OtherException "Registry error")
  /\ read_outcome world_default = ValueAbsent
  /\ fst (get_current_font self0 world_open_refused)
     = fst (get_current_font self0 world_default).
Proof.
  split; [exact read_outcome_open_refused|].
  split; [exact read_outcome_default|].
  rewrite !get_current_font_run. unfold current_override.
  now rewrite read_outcome_open_refused, read_outcome_default.
Qed.

(** C9, amended.  A failure to open the key and a value that is not found
    both give the result [None]: the two are not told apart by the value
    [get_current_font] returns. *)
Theorem get_current_font_open_failure_like_not_found
    (self : FontManager) (w1 w2 : World) (e : exn) :
  read_outcome w1 = OpenFailed e ->
  read_outcome w2 = ValueAbsent ->
  fst (get_current_font self w1) = Ok None
  /\ fst (get_current_font self w2) = Ok None.
Proof.
  intros H1 H2. rewrite !get_current_font_run. unfold current_override.
  now rewrite H1, H2.
Qed.

Lemma get_current_font_open_failure_like_not_found_witness :
  fst (get_current_font self0 world_open_refused) = Ok None
  /\ fst (get_current_font self0 world_default) = Ok None.
Proof.
  apply (get_current_font_open_failure_like_not_found self0
           world_open_refused world_default (OtherException "Registry error")).
  - exact read_outcome_open_refused.
  - exact read_outcome_default.
Defined.

(** ** The static table *)

(** C8, the claim as stated is false: the table has twenty entries, and
    five of them are not Segoe UI variants. *)
Lemma table_not_nineteen :
  length SEGOE_UI_FONTS <> 19
  /\ In "Segoe Print (TrueType)" (map fst SEGOE_UI_FONTS)
  /\ Str.contains "Segoe UI" "Segoe Print (TrueType)" = false.
Proof.
  split; [vm_compute; discriminate|].
  split; [|reflexivity].
  cbn [map fst SEGOE_UI_FONTS]. do 16 right. now left.
Qed.

(** C8, amended.  The table has exactly twenty entries with distinct
    display names, all of the Segoe family; fifteen of them contain
    [Segoe UI], the other five are MDL2 Assets, Print, Print Bold, Script
    and Script Bold. *)
Theorem table_twenty_entries :
  length SEGOE_UI_FONTS = 20
  /\ NoDup (map fst SEGOE_UI_FONTS)
  /\ forallb (fun entry => String.prefix "Segoe " (fst entry)) SEGOE_UI_FONTS = true
  /\ length segoe_ui_entries = 15
  /\ List.filter (fun name => negb (Str.contains "Segoe UI" name))
       (map fst SEGOE_UI_FONTS)
     = ["Segoe MDL2 Assets (TrueType)"; "Segoe Print (TrueType)";
        "Segoe Print Bold (TrueType)"; "Segoe Script (TrueType)";
        "Segoe Script Bold (TrueType)"].
Proof.
  split; [reflexivity|].
  split; [exact table_names_NoDup|].
  repeat split; vm_compute; reflexivity.
Qed.

(** ** The backup document *)

Lemma backup_lines_header (readable : bool) (current_font : option string) :
  In header_line (backup_lines readable current_font).
Proof. now left. Qed.

Lemma backup_lines_sections (readable : bool) (current_font : option string) :
  In fonts_section_line (backup_lines readable current_font)
  /\ In substitutes_section_line (backup_lines readable current_font)
  /\ In (backup_substitute_line current_font) (backup_lines readable current_font).
Proof.
  unfold backup_lines. repeat split.
  - apply in_or_app. left. right; right; now left.
  - apply in_or_app. right. apply in_or_app. right. right; now left.
  - apply in_or_app. right. apply in_or_app. right. right; right; now left.
Qed.

Lemma backup_lines_table (current_font : option string) :
  Forall (fun entry => In (table_line entry) (backup_lines true current_font))
    SEGOE_UI_FONTS.
Proof.
  apply Forall_forall. intros entry Hin. unfold backup_lines.
  apply in_or_app. right. apply in_or_app. left.
  unfold table_lines. apply in_map. now apply list_elem_of_In.
Qed.

(** C2, the claim as stated is false: when the Fonts key cannot be opened
    for reading, the backup holds the section header and no entry line; the
    rest of the backup is still written. *)
Lemma backup_without_table_when_unreadable :
  fonts_key_readable world_open_refused = false
  /\ calls (snd (backup_current_settings self0 world_open_refused))
     = [OpenKey_call FONTS_KEY_PATH KEY_READ;
        OpenKey_call FONT_SUBSTITUTES_KEY_PATH KEY_READ;
        write_text_call (_backup_file self0)
          (Str.join (String Str.LF "")
             [header_line; ""; fonts_section_line; "";
              substitutes_section_line; delete_line])]
  /\ Str.contains (table_line ("Segoe UI (TrueType)", "segoeui.ttf"))
       (backup_document world_open_refused) = false.
Proof. repeat split; vm_compute; reflexivity. Qed.

(** C2, amended.  The backup always holds the two section headers and the
    substitution line, and the write of the file is always attempted.  The
    entries of the static table (display name and file name, not the live
    values) are written when the Fonts key could be opened for reading;
    when it could not, no entry is written. *)
Theorem backup_table_when_readable (self : FontManager) (w : World) :
  let lines := backup_lines (fonts_key_readable w) (current_override w) in
  calls (snd (backup_current_settings self w))
  = calls w ++ fonts_read_calls w ++ read_calls w
    ++ [write_text_call (_backup_file self) (Str.join (String Str.LF "") lines)]
  /\ In fonts_section_line lines
  /\ In substitutes_section_line lines
  /\ In (backup_substitute_line (current_override w)) lines
  /\ (if fonts_key_readable w
      then Forall (fun entry => In (table_line entry) lines) SEGOE_UI_FONTS
      else lines = [header_line; ""; fonts_section_line; "";
                    substitutes_section_line;
                    backup_substitute_line (current_override w)]).
Proof.
  cbv zeta. split; [apply backup_calls|].
  destruct (backup_lines_sections (fonts_key_readable w) (current_override w))
    as (H1 & H2 & H3).
  repeat (split; [assumption|]).
  destruct (fonts_key_readable w); [apply backup_lines_table | reflexivity].
Qed.

(** C6, the claim as stated is false: when the override is the empty
    string, the backup holds the delete directive, not the line that sets
    the value. *)
Lemma backup_empty_override_deleted :
  current_override world_empty_override = Some EmptyString
  /\ calls (snd (backup_current_settings self0 world_empty_override))
     = [OpenKey_call FONTS_KEY_PATH KEY_READ; CloseKey_call FONTS_KEY_PATH;
        OpenKey_call FONT_SUBSTITUTES_KEY_PATH KEY_READ;
        QueryValueEx_call FONT_SUBSTITUTES_KEY_PATH "Segoe UI";
        CloseKey_call FONT_SUBSTITUTES_KEY_PATH;
        write_text_call (_backup_file self0)
          (Str.join (String Str.LF "")
             ([header_line; ""; fonts_section_line] ++ table_lines
              ++ [""; substitutes_section_line; delete_line]))]
  /\ Str.contains (substitute_line "") (backup_document world_empty_override)
     = false.
Proof. repeat split; vm_compute; reflexivity. Qed.

(** C6, amended.  The backup always holds the header line.  When the
    override read back is a non-empty string, it holds the line that sets
    [Segoe UI] to it; when there is no override, or the override is the
    empty string, it holds the delete directive. *)
Theorem backup_header_and_substitution (self : FontManager) (w : World) :
  let lines := backup_lines (fonts_key_readable w) (current_override w) in
  calls (snd (backup_current_settings self w))
  = calls w ++ fonts_read_calls w ++ read_calls w
    ++ [write_text_call (_backup_file self) (Str.join (String Str.LF "") lines)]
  /\ In header_line lines
  /\ Str.contains header_line (Str.join (String Str.LF "") lines) = true
  /\ match current_override w with
     | Some (String c f) =>
         In (substitute_line (String c f)) lines
         /\ Str.contains (substitute_line (String c f))
              (Str.join (String Str.LF "") lines) = true
     | Some EmptyString | None =>
         In delete_line lines
         /\ Str.contains delete_line (Str.join (String Str.LF "") lines) = true
     end.
Proof.
  cbv zeta. split; [apply backup_calls|].
  split; [apply backup_lines_header|].
  split; [apply join_contains, backup_lines_header|].
  destruct (backup_lines_sections (fonts_key_readable w) (current_override w))
    as (_ & _ & H).
  destruct (current_override w) as [[|c f]|];
    (split; [exact H | apply join_contains; exact H]).
Qed.

(** ** [create_reg_file] *)

Lemma reg_content_lines (font_name : string) :
  reg_content font_name
  = [header_line; ""; fonts_section_line]
    ++ map cleared_line segoe_ui_entries
    ++ [""; substitutes_section_line; substitute_line font_name].
Proof.
  unfold reg_content.
  rewrite (fold_left_append_if (Str.contains "Segoe UI") cleared_line).
  rewrite <- app_assoc.
  unfold header_line, fonts_section_line, substitutes_section_line,
    substitute_line, segoe_ui_entries.
  reflexivity.
Qed.

Lemma reg_content_substitute (font_name : string) :
  In (substitute_line font_name) (reg_content font_name).
Proof.
  rewrite reg_content_lines.
  apply in_or_app. right. apply in_or_app. right. right; right; now left.
Qed.

Lemma reg_content_cleared (font_name : string) :
  Forall (fun font_entry => In (cleared_line font_entry) (reg_content font_name))
    segoe_ui_entries.
Proof.
  apply Forall_forall. intros font_entry Hin. rewrite reg_content_lines.
  apply in_or_app. right. apply in_or_app. left.
  apply in_map. now apply list_elem_of_In.
Qed.

(** C7.  [create_reg_file] makes one call, the write of the file: no
    registry call, and the registry is as it was.  The text it writes has
    the header line, the cleared line of every entry whose display name
    contains [Segoe UI], and the line that sets [Segoe UI] to the font
    name.  No file at another path changes.  When the system accepts the
    write, the file at the path holds the text encoded as UTF-16LE
    (decoding it gives the text back); when it refuses to open the file,
    or fails while the bytes are written, the exception is raised. *)
Theorem create_reg_file_writes_only_the_file
    (self : FontManager) (font_name : string) (output_path : Path) (w : World) :
  let run := create_reg_file self font_name output_path w in
  registry (snd run) = registry w
  /\ calls (snd run) = calls w ++ [write_text_call output_path (reg_document font_name)]
  /\ List.filter is_registry_call
       [write_text_call output_path (reg_document font_name)] = []
  /\ In header_line (reg_content font_name)
  /\ Forall (fun font_entry => In (cleared_line font_entry) (reg_content font_name))
       segoe_ui_entries
  /\ In (substitute_line font_name) (reg_content font_name)
  /\ Str.contains (substitute_line font_name) (reg_document font_name) = true
  /\ delete output_path (files (snd run)) = delete output_path (files w)
  /\ match faults w (write_text_call output_path (reg_document font_name)) with
     | Some e => fst run = Raise e
     | None =>
         match fst (write_bytes (faults w) output_path 0
                      (Str.utf_16_le (Str.os_newlines (reg_document font_name)))) with
         | Some e => fst run = Raise e
         | None =>
             fst run = Ok tt
             /\ files (snd run) !! output_path
                = Some (Str.utf_16_le (Str.os_newlines (reg_document font_name)))
             /\ Str.utf_16_le_decode
                  (Str.utf_16_le (Str.os_newlines (reg_document font_name)))
                = Some (Str.os_newlines (reg_document font_name))
         end
     end.
Proof.
  cbv zeta. unfold create_reg_file.
  change (Str.join (String Str.LF "") (reg_content font_name))
    with (reg_document font_name).
  rewrite write_text_run.
  assert (Hh : In header_line (reg_content font_name))
    by (rewrite reg_content_lines; apply in_or_app; left; now left).
  assert (Hc := reg_content_cleared font_name).
  assert (Hs := reg_content_substitute font_name).
  assert (Hj : Str.contains (substitute_line font_name) (reg_document font_name) = true)
    by (apply join_contains, reg_content_substitute).
  destruct (faults w _) as [e|];
    [|destruct (fst (write_bytes _ _ _ _)) as [e|]];
    cbn [fst snd registry files calls set_files after_calls].
  - split; [reflexivity|]. split; [reflexivity|]. split; [reflexivity|].
    split; [exact Hh|]. split; [exact Hc|]. split; [exact Hs|].
    split; [exact Hj|]. split; reflexivity.
  - split; [reflexivity|]. split; [reflexivity|]. split; [reflexivity|].
    split; [exact Hh|]. split; [exact Hc|]. split; [exact Hs|].
    split; [exact Hj|]. split; [apply delete_insert_eq | reflexivity].
  - split; [reflexivity|]. split; [reflexivity|]. split; [reflexivity|].
    split; [exact Hh|]. split; [exact Hc|]. split; [exact Hs|].
    split; [exact Hj|]. split; [apply delete_insert_eq|].
    split; [reflexivity|].
    split; [apply lookup_insert_eq | apply utf_16_le_roundtrip].
Qed.

(** ** The font name is not checked *)

Lemma count_quoted (s : string) :
  Str.count Str.quote (Str.quoted s) = 2 + Str.count Str.quote s.
Proof.
  unfold Str.quoted. cbn [Str.count]. rewrite count_app. cbn [Str.count].
  rewrite Ascii.eqb_refl. lia.
Qed.

Lemma substitute_line_quotes (font_name : string) :
  Str.count Str.quote (substitute_line font_name)
  = 4 + Str.count Str.quote font_name.
Proof.
  unfold substitute_line. rewrite !count_app, !count_quoted.
  change (Str.count Str.quote "Segoe UI") with 0.
  change (Str.count Str.quote "=") with 0. lia.
Qed.

Lemma changed_registry_value (font_name : string)
    (r : gmap string (gmap string string)) (vs : gmap string string) :
  r !! FONT_SUBSTITUTES_KEY_PATH = Some vs ->
  changed_registry font_name r !! FONT_SUBSTITUTES_KEY_PATH
    ≫= (fun values => values !! "Segoe UI")
  = Some font_name.
Proof.
  intros Hs. rewrite (changed_registry_substitutes font_name r vs Hs).
  cbn [mbind option_bind]. apply lookup_insert_eq.
Qed.

(** C10.  The font name is neither checked nor escaped.  For every string,
    the empty one included, [change_font] that gets through its registry
    calls reports success and leaves the string itself as the [Segoe UI]
    substitution value.  [create_reg_file] writes the string between two
    double-quote characters as it is: the line has four double quotes more
    than the font name, so an odd number of them whenever the name has an
    odd number. *)
Theorem font_name_unchecked (self : FontManager) (font_name : string) (w : World) :
  (forall vf vs,
     fst (backup_current_settings self w) = Ok tt ->
     writes_permitted w ->
     registry w !! FONTS_KEY_PATH = Some vf ->
     registry w !! FONT_SUBSTITUTES_KEY_PATH = Some vs ->
     fst (change_font self font_name w) = Ok (true, change_font_message font_name)
     /\ registry (snd (change_font self font_name w)) !! FONT_SUBSTITUTES_KEY_PATH
          ≫= (fun values => values !! "Segoe UI")
        = Some font_name)
  /\ In (substitute_line font_name) (reg_content font_name)
  /\ substitute_line font_name
     = String Str.quote
         ("Segoe UI" +:+
          String Str.quote ("=" +:+ String Str.quote (font_name +:+ String Str.quote "")))
  /\ Str.count Str.quote (substitute_line font_name)
     = 4 + Str.count Str.quote font_name
  /\ (Nat.odd (Str.count Str.quote font_name) = true ->
      Nat.odd (Str.count Str.quote (substitute_line font_name)) = true).
Proof.
  split.
  - intros vf vs Hb Hp Hf Hs.
    rewrite (change_font_success self font_name w vf vs Hb Hp Hf Hs).
    cbn [fst snd registry set_registry]. split; [reflexivity|].
    now apply (changed_registry_value font_name _ vs).
  - split; [apply reg_content_substitute|].
    split; [reflexivity|].
    split; [apply substitute_line_quotes|].
    intros Hodd. rewrite substitute_line_quotes.
    change (4 + Str.count Str.quote font_name)
      with (S (S (S (S (Str.count Str.quote font_name))))).
    now rewrite !Nat.odd_succ_succ.
Qed.

Lemma font_name_unchecked_witness :
  (fst (change_font self0 "" world_default) = Ok (true, change_font_message "")
   /\ registry (snd (change_font self0 "" world_default)) !! FONT_SUBSTITUTES_KEY_PATH
        ≫= (fun values => values !! "Segoe UI")
      = Some EmptyString)
  /\ Nat.odd (Str.count Str.quote (substitute_line quote_font)) = true.
Proof.
  split.
  - destruct (font_name_unchecked self0 "" world_default) as (H & _).
    apply (H (list_to_map SEGOE_UI_FONTS) ∅).
    + rewrite backup_result. reflexivity.
    + intros c _. reflexivity.
    + exact world_default_fonts.
    + exact world_default_substitutes.
  - destruct (font_name_unchecked self0 quote_font world_default)
      as (_ & _ & _ & _ & H).
    apply H. reflexivity.
Defined.

(** ** [restore_default_font] *)

Lemma for_each_ext {A} (f g : A -> M unit) (l : list A) (w : World) :
  (forall x, f x = g x) -> for_each l f w = for_each l g w.
Proof.
  intros H. revert w; induction l as [|x l IH]; intros w; [reflexivity|].
  cbn [for_each]. unfold bind. rewrite H.
  destruct (g x w) as [[[]|e] w']; [apply IH|reflexivity].
Qed.

(** The handler around [DeleteValue]: a value that is not there is fine. *)
Lemma delete_value_run (w : World) (vs : gmap string string) :
  faults w (DeleteValue_call FONT_SUBSTITUTES_KEY_PATH "Segoe UI") = None ->
  registry w !! FONT_SUBSTITUTES_KEY_PATH = Some vs ->
  try_except
    (winreg.DeleteValue
       {| hpath := FONT_SUBSTITUTES_KEY_PATH; haccess := KEY_SET_VALUE |} "Segoe UI")
    (fun e => match e with
              | FileNotFoundError _ => ret tt
              | _ => raise e
              end) w
  = (Ok tt,
     set_registry
       (<[FONT_SUBSTITUTES_KEY_PATH := delete "Segoe UI" vs]> (registry w))
       (after_calls [DeleteValue_call FONT_SUBSTITUTES_KEY_PATH "Segoe UI"] w)).
Proof.
  intros Hf Hk. unfold try_except, winreg.DeleteValue.
  cbn [faults registry record hpath haccess winreg.access_eqb].
  rewrite Hf, Hk. destruct (vs !! "Segoe UI") as [v|] eqn:E.
  - reflexivity.
  - unfold ret. rewrite (delete_id _ _ E), (insert_id _ _ _ Hk).
    destruct w; reflexivity.
Qed.

Lemma restore_default_font_run (self : FontManager) (w : World)
    (vf vs : gmap string string) :
  writes_permitted w ->
  registry w !! FONTS_KEY_PATH = Some vf ->
  registry w !! FONT_SUBSTITUTES_KEY_PATH = Some vs ->
  restore_default_font self w
  = (Ok (true, restore_message),
     set_registry (restored_registry (registry w)) (after_calls restore_calls w)).
Proof.
  intros Hp Hf Hs.
  unfold restore_default_font, try_except, restore_default_font_try.
  unfold bind at 1.
  rewrite (with_OpenKey_run _ _ _ w vf
             (Hp (OpenKey_call FONTS_KEY_PATH KEY_SET_VALUE) eq_refl) Hf).
  rewrite (for_each_ext _
             (fun entry =>
                winreg.SetValueEx
                  {| hpath := FONTS_KEY_PATH; haccess := KEY_SET_VALUE |}
                  (fst entry) (snd entry)))
    by (now intros [n d]).
  rewrite (set_loop {| hpath := FONTS_KEY_PATH; haccess := KEY_SET_VALUE |}
             SEGOE_UI_FONTS _ vf eq_refl (writes_permitted_after _ _ Hp) Hf).
  cbn [fst snd]. unfold bind at 1.
  set (w1 := after_calls _ (set_registry _ _)).
  assert (Hs1 : registry w1 !! FONT_SUBSTITUTES_KEY_PATH = Some vs).
  { subst w1. cbn [registry after_calls set_registry hpath].
    rewrite lookup_insert_ne by exact keys_differ. exact Hs. }
  rewrite (with_OpenKey_run _ _ _ w1 vs
             (Hp (OpenKey_call FONT_SUBSTITUTES_KEY_PATH KEY_SET_VALUE) eq_refl) Hs1).
  rewrite (delete_value_run
             (after_calls [OpenKey_call FONT_SUBSTITUTES_KEY_PATH KEY_SET_VALUE] w1)
             vs (Hp (DeleteValue_call _ _) eq_refl) Hs1).
  cbn [fst snd]. unfold ret, restore_message. f_equal.
  unfold restored_registry. rewrite Hf. cbn [default].
  rewrite lookup_insert_ne by exact keys_differ. rewrite Hs. cbn [default].
  subst w1. unfold restore_calls. world_eq.
Qed.

Lemma restored_registry_fonts (r : gmap string (gmap string string))
    (vf : gmap string string) :
  r !! FONTS_KEY_PATH = Some vf ->
  restored_registry r !! FONTS_KEY_PATH = Some (set_values SEGOE_UI_FONTS vf).
Proof.
  intros Hf. unfold restored_registry.
  rewrite lookup_insert_ne by (apply not_eq_sym, keys_differ).
  rewrite lookup_insert_eq, Hf. reflexivity.
Qed.

Lemma restored_registry_substitutes (r : gmap string (gmap string string))
    (vs : gmap string string) :
  r !! FONT_SUBSTITUTES_KEY_PATH = Some vs ->
  restored_registry r !! FONT_SUBSTITUTES_KEY_PATH = Some (delete "Segoe UI" vs).
Proof.
  intros Hs. unfold restored_registry.
  rewrite lookup_insert_eq.
  rewrite lookup_insert_ne by exact keys_differ. rewrite Hs. reflexivity.
Qed.

Lemma restored_registry_idempotent (r : gmap string (gmap string string))
    (vf vs : gmap string string) :
  r !! FONTS_KEY_PATH = Some vf ->
  r !! FONT_SUBSTITUTES_KEY_PATH = Some vs ->
  restored_registry (restored_registry r) = restored_registry r.
Proof.
  intros Hf Hs.
  pose proof (restored_registry_fonts r vf Hf) as Hf1.
  pose proof (restored_registry_substitutes r vs Hs) as Hs1.
  unfold restored_registry at 1. rewrite Hf1. cbn [default from_option id].
  rewrite (set_values_idempotent _ _ table_names_NoDup).
  rewrite (insert_id _ _ _ Hf1), Hs1. cbn [default from_option id].
  rewrite delete_delete_eq. apply insert_id, Hs1.
Qed.

Lemma restored_values (vf : gmap string string) :
  Forall (fun entry => set_values SEGOE_UI_FONTS vf !! fst entry = Some (snd entry))
    SEGOE_UI_FONTS.
Proof.
  apply Forall_forall. intros [n d] Hin. cbn [fst snd].
  apply set_values_lookup; [exact table_names_NoDup|].
  now apply list_elem_of_In.
Qed.

Lemma restore_calls_delete :
  In (DeleteValue_call FONT_SUBSTITUTES_KEY_PATH "Segoe UI") restore_calls.
Proof.
  unfold restore_calls. apply in_or_app. right. apply in_or_app. right.
  right; right; now left.
Qed.

(** C4.  With no override set, [restore_default_font] that is refused no
    registry write succeeds: the [DeleteValue] call is made, it raises the
    not-found error, and the result is still success.  Every entry of the
    static table is written back with its file name, the substitution key
    is left as it was, and running the operation again gives the same
    result and the same registry. *)
Theorem restore_default_font_without_override
    (self : FontManager) (w : World) (vf vs : gmap string string) :
  writes_permitted w ->
  registry w !! FONTS_KEY_PATH = Some vf ->
  registry w !! FONT_SUBSTITUTES_KEY_PATH = Some vs ->
  vs !! "Segoe UI" = None ->
  let run := restore_default_font self w in
  fst run = Ok (true, restore_message)
  /\ In (DeleteValue_call FONT_SUBSTITUTES_KEY_PATH "Segoe UI") (calls (snd run))
  /\ fst (winreg.DeleteValue
            {| hpath := FONT_SUBSTITUTES_KEY_PATH; haccess := KEY_SET_VALUE |}
            "Segoe UI" w)
     = Raise (FileNotFoundError "The system cannot find the file specified")
  /\ registry (snd run) !! FONT_SUBSTITUTES_KEY_PATH = Some vs
  /\ registry (snd run) !! FONTS_KEY_PATH = Some (set_values SEGOE_UI_FONTS vf)
  /\ Forall (fun entry => set_values SEGOE_UI_FONTS vf !! fst entry = Some (snd entry))
       SEGOE_UI_FONTS
  /\ fst (restore_default_font self (snd run)) = Ok (true, restore_message)
  /\ registry (snd (restore_default_font self (snd run))) = registry (snd run).
Proof.
  intros Hp Hf Hs Habsent. cbv zeta.
  rewrite (restore_default_font_run self w vf vs Hp Hf Hs).
  cbn [fst snd registry calls set_registry after_calls].
  pose proof (restored_registry_fonts _ vf Hf) as Hf1.
  pose proof (restored_registry_substitutes _ vs Hs) as Hs1.
  rewrite (delete_id _ _ Habsent) in Hs1.
  split; [reflexivity|].
  split; [apply in_or_app; right; exact restore_calls_delete|].
  split.
  { unfold winreg.DeleteValue. cbn [faults registry record hpath haccess winreg.access_eqb fst].
    rewrite (Hp (DeleteValue_call _ _) eq_refl), Hs, Habsent. reflexivity. }
  split; [exact Hs1|]. split; [exact Hf1|]. split; [apply restored_values|].
  rewrite (restore_default_font_run self
             (set_registry (restored_registry (registry w))
                (after_calls restore_calls w))
             _ vs (fun c Hc => Hp c Hc) Hf1 Hs1).
  cbn [fst snd registry set_registry after_calls].
  split; [reflexivity|].
  apply (restored_registry_idempotent _ vf vs Hf Hs).
Qed.

Lemma restore_default_font_without_override_witness :
  fst (restore_default_font self0 world_default) = Ok (true, restore_message)
  /\ registry (snd (restore_default_font self0 world_default))
       !! FONT_SUBSTITUTES_KEY_PATH = Some ∅.
Proof.
  destruct (restore_default_font_without_override self0 world_default
              (list_to_map SEGOE_UI_FONTS) ∅)
    as (H1 & _ & _ & H2 & _).
  - intros c _. reflexivity.
  - exact world_default_fonts.
  - exact world_default_substitutes.
  - apply lookup_empty.
  - split; [exact H1 | exact H2].
Defined.

(** ** Failures of [change_font] and [restore_default_font] *)



(** * Further properties *)

(** ** A refused or missing key *)

Lemma with_OpenKey_raises {A} (sub_key : string) (access : Access)
    (body : HKEY -> M A) (w : World) (e : exn) :
  open_error w sub_key access = Some e ->
  winreg.with_OpenKey sub_key access body w
  = (Raise e, after_calls [OpenKey_call sub_key access] w).
Proof.
  unfold open_error, winreg.with_OpenKey, bind, winreg.OpenKey.
  cbn [faults registry record hpath].
  destruct (faults w _) as [e'|].
  - now intros [= ->].
  - destruct (registry w !! sub_key); [discriminate | now intros [= <-]].
Qed.

Lemma backup_split (self : FontManager) (w : World) :
  backup_current_settings self w
  = (fst (backup_current_settings self w), snd (backup_current_settings self w)).
Proof. now destruct (backup_current_settings self w). Qed.

Lemma open_error_after_backup (self : FontManager) (w : World)
    (sub_key : string) (access : Access) :
  open_error (snd (backup_current_settings self w)) sub_key access
  = open_error w sub_key access.
Proof. unfold open_error. now rewrite backup_faults, backup_registry. Qed.

Lemma backup_file_written (self : FontManager) (w : World) :
  fst (backup_current_settings self w) = Ok tt ->
  files (snd (backup_current_settings self w)) !! _backup_file self
  = Some (Str.utf_16_le (Str.os_newlines (backup_document w))).
Proof.
  rewrite backup_result, backup_files.
  destruct (faults w _); [discriminate|].
  destruct (fst (write_bytes _ _ _ _)); [discriminate|]. intros _. apply lookup_insert_eq.
Qed.

(** X1.  When the backup has been written and the Fonts key cannot be opened
    for writing (refused, or missing), [change_font] returns failure with
    the message for that exception, makes no further call, and leaves the
    registry as it was; the backup file stays written. *)
Theorem change_font_fonts_key_unavailable
    (self : FontManager) (font_name : string) (w : World) (e : exn) :
  fst (backup_current_settings self w) = Ok tt ->
  open_error w FONTS_KEY_PATH KEY_SET_VALUE = Some e ->
  change_font self font_name w
  = (Ok (false, change_failure_message e),
     after_calls [OpenKey_call FONTS_KEY_PATH KEY_SET_VALUE]
       (snd (backup_current_settings self w)))
  /\ registry (snd (change_font self font_name w)) = registry w
  /\ files (snd (change_font self font_name w)) !! _backup_file self
     = Some (Str.utf_16_le (Str.os_newlines (backup_document w))).
Proof.
  intros Hb He.
  assert (Hrun : change_font self font_name w
                 = (Ok (false, change_failure_message e),
                    after_calls [OpenKey_call FONTS_KEY_PATH KEY_SET_VALUE]
                      (snd (backup_current_settings self w)))).
  { unfold change_font, try_except, change_font_try. unfold bind at 1.
    rewrite backup_split, Hb. unfold bind at 1.
    rewrite (with_OpenKey_raises _ _ _ _ e)
      by (rewrite open_error_after_backup; exact He).
    now destruct e. }
  rewrite Hrun. cbn [fst snd registry files after_calls].
  split; [reflexivity|]. split; [apply backup_registry|].
  now apply backup_file_written.
Qed.

Lemma change_font_fonts_key_unavailable_witness :
  fst (change_font self0 "Arial" world_write_denied)
  = Ok (false, permission_message)
  /\ registry (snd (change_font self0 "Arial" world_write_denied))
     = registry world_write_denied.
Proof.
  destruct (change_font_fonts_key_unavailable self0 "Arial" world_write_denied
              (PermissionError "[WinError 5] Access is denied"))
    as (H1 & H2 & _).
  - rewrite backup_result. reflexivity.
  - reflexivity.
  - rewrite H1. split; [reflexivity|]. rewrite <- H1. exact H2.
Defined.

Lemma set_loop_key (key : HKEY) (l : list (string * string)) (w : World)
    (vs : gmap string string) :
  haccess key = KEY_SET_VALUE ->
  (forall name data, faults w (SetValueEx_call (hpath key) name data) = None) ->
  registry w !! hpath key = Some vs ->
  for_each l (fun entry => winreg.SetValueEx key (fst entry) (snd entry)) w
  = (Ok tt,
     set_registry (<[hpath key := set_values l vs]> (registry w))
       (after_calls (set_calls (hpath key) l) w)).
Proof.
  intros Ha. revert w vs.
  induction l as [|[n d] l IH]; intros w vs Hp Hk.
  - cbn [for_each set_values set_calls fold_left map]. unfold ret.
    rewrite (insert_id _ _ _ Hk). destruct w. unfold set_registry, after_calls.
    cbn [registry files faults calls]. now rewrite app_nil_r.
  - cbn [for_each]. unfold bind. cbn [fst snd].
    rewrite (SetValueEx_run key n d w vs Ha (Hp n d) Hk).
    rewrite (IH _ (<[n := d]> vs)).
    + f_equal. unfold set_registry, after_calls.
      cbn [registry files faults calls set_calls map fst snd].
      rewrite insert_insert_eq, <- app_assoc. reflexivity.
    + exact Hp.
    + cbn [registry set_registry after_calls]. apply lookup_insert_eq.
Qed.

Lemma clear_loop_key (w : World) (vf : gmap string string) :
  (forall name data, faults w (SetValueEx_call FONTS_KEY_PATH name data) = None) ->
  registry w !! FONTS_KEY_PATH = Some vf ->
  for_each (map fst SEGOE_UI_FONTS) (fun font_entry =>
    if Str.contains "Segoe UI" font_entry
    then winreg.SetValueEx
           {| hpath := FONTS_KEY_PATH; haccess := KEY_SET_VALUE |} font_entry ""
    else ret tt) w
  = (Ok tt,
     set_registry (<[FONTS_KEY_PATH := set_values cleared_entries vf]> (registry w))
       (after_calls (set_calls FONTS_KEY_PATH cleared_entries) w)).
Proof.
  intros Hp Hk.
  rewrite (for_each_if (Str.contains "Segoe UI")
             (fun font_entry =>
                winreg.SetValueEx
                  {| hpath := FONTS_KEY_PATH; haccess := KEY_SET_VALUE |}
                  font_entry "")).
  unfold cleared_entries, segoe_ui_entries.
  etransitivity;
    [|exact (set_loop_key {| hpath := FONTS_KEY_PATH; haccess := KEY_SET_VALUE |}
               _ w vf eq_refl Hp Hk)].
  rewrite for_each_map. reflexivity.
Qed.

Lemma cleared_values (vf : gmap string string) :
  Forall (fun font_entry => set_values cleared_entries vf !! font_entry = Some EmptyString)
    segoe_ui_entries.
Proof.
  apply Forall_forall. intros font_entry Hin.
  apply set_values_lookup; [exact cleared_names_NoDup|].
  unfold cleared_entries. apply in_map_iff. exists font_entry.
  split; [reflexivity | now apply list_elem_of_In].
Qed.

(** X2.  No rollback.  When the backup is written and the Fonts key is
    cleared, but the FontSubstitutes key cannot be opened for writing
    (refused, or missing), [change_font] returns failure and leaves the
    registry half changed: the Segoe UI entries are empty strings, and the
    FontSubstitutes key is as it was. *)
Theorem change_font_no_rollback
    (self : FontManager) (font_name : string) (w : World)
    (vf : gmap string string) (e : exn) :
  fst (backup_current_settings self w) = Ok tt ->
  faults w (OpenKey_call FONTS_KEY_PATH KEY_SET_VALUE) = None ->
  (forall name data, faults w (SetValueEx_call FONTS_KEY_PATH name data) = None) ->
  registry w !! FONTS_KEY_PATH = Some vf ->
  open_error w FONT_SUBSTITUTES_KEY_PATH KEY_SET_VALUE = Some e ->
  fst (change_font self font_name w) = Ok (false, change_failure_message e)
  /\ registry (snd (change_font self font_name w))
     = <[FONTS_KEY_PATH := set_values cleared_entries vf]> (registry w)
  /\ Forall (fun font_entry =>
               set_values cleared_entries vf !! font_entry = Some EmptyString)
       segoe_ui_entries
  /\ registry (snd (change_font self font_name w)) !! FONT_SUBSTITUTES_KEY_PATH
     = registry w !! FONT_SUBSTITUTES_KEY_PATH.
Proof.
  intros Hb Hopen Hset Hf He.
  assert (Hrun :
    exists w', change_font self font_name w = (Ok (false, change_failure_message e), w')
               /\ registry w'
                  = <[FONTS_KEY_PATH := set_values cleared_entries vf]> (registry w)).
  { unfold change_font, try_except, change_font_try. unfold bind at 1.
    rewrite backup_split, Hb. unfold bind at 1.
    set (wb := snd (backup_current_settings self w)).
    assert (Hfb : faults wb = faults w) by apply backup_faults.
    assert (Hrb : registry wb = registry w) by apply backup_registry.
    rewrite (with_OpenKey_run _ _ _ wb vf)
      by (rewrite ?Hfb, ?Hrb; assumption).
    rewrite (clear_loop_key _ vf)
      by (cbn [faults registry after_calls]; rewrite ?Hfb, ?Hrb; assumption).
    cbn [fst snd]. unfold bind at 1.
    rewrite (with_OpenKey_raises _ _ _ _ e).
    - eexists. split; [now destruct e|].
      cbn [registry after_calls set_registry]. now rewrite Hrb.
    - unfold open_error in *. cbn [faults registry after_calls set_registry].
      rewrite Hfb, Hrb.
      rewrite lookup_insert_ne by exact keys_differ. exact He. }
  destruct Hrun as (w' & -> & Hr). cbn [fst snd].
  split; [reflexivity|]. split; [exact Hr|]. split; [apply cleared_values|].
  rewrite Hr. apply lookup_insert_ne, keys_differ.
Qed.

Lemma change_font_no_rollback_witness :
  fst (change_font self0 "Arial" world_no_substitutes)
  = Ok (false, "Error changing font: The system cannot find the file specified")
  /\ registry (snd (change_font self0 "Arial" world_no_substitutes))
       !! FONT_SUBSTITUTES_KEY_PATH = None.
Proof.
  destruct (change_font_no_rollback self0 "Arial" world_no_substitutes
              (list_to_map SEGOE_UI_FONTS)
              (FileNotFoundError "The system cannot find the file specified"))
    as (H1 & _ & _ & H2).
  - rewrite backup_result. reflexivity.
  - reflexivity.
  - reflexivity.
  - apply lookup_insert_eq.
  - unfold open_error. cbn [faults registry world_no_substitutes no_faults].
    now rewrite (lookup_singleton_ne _ _ _ keys_differ).
  - split; [exact H1|]. rewrite H2.
    cbn [registry world_no_substitutes].
    apply lookup_singleton_ne, keys_differ.
Defined.

(** ** How the operations compose *)

Lemma changed_registry_other (font_name : string)
    (r : gmap string (gmap string string)) (sub_key : string) :
  sub_key <> FONTS_KEY_PATH ->
  sub_key <> FONT_SUBSTITUTES_KEY_PATH ->
  changed_registry font_name r !! sub_key = r !! sub_key.
Proof.
  intros H1 H2. unfold changed_registry.
  rewrite lookup_insert_ne by (apply not_eq_sym, H2).
  now rewrite lookup_insert_ne by (apply not_eq_sym, H1).
Qed.

Lemma restored_registry_other (r : gmap string (gmap string string))
    (sub_key : string) :
  sub_key <> FONTS_KEY_PATH ->
  sub_key <> FONT_SUBSTITUTES_KEY_PATH ->
  restored_registry r !! sub_key = r !! sub_key.
Proof.
  intros H1 H2. unfold restored_registry.
  rewrite lookup_insert_ne by (apply not_eq_sym, H2).
  now rewrite lookup_insert_ne by (apply not_eq_sym, H1).
Qed.

Lemma cleared_names_in_table (name : string) :
  In name (map fst cleared_entries) -> In name (map fst SEGOE_UI_FONTS).
Proof.
  unfold cleared_entries, segoe_ui_entries. rewrite map_map. cbn [fst].
  rewrite map_id. intros H. now apply filter_In in H.
Qed.

Lemma restore_over_cleared (vf : gmap string string) :
  set_values SEGOE_UI_FONTS (set_values cleared_entries vf)
  = set_values SEGOE_UI_FONTS vf.
Proof.
  apply map_eq. intros name.
  destruct (in_dec string_dec name (map fst SEGOE_UI_FONTS)) as [Hin|Hn].
  - apply in_map_iff in Hin as [[n d] [E Hin]]. cbn in E; subst n.
    now rewrite !(set_values_lookup SEGOE_UI_FONTS _ name d table_names_NoDup Hin).
  - rewrite !(set_values_lookup_other SEGOE_UI_FONTS) by exact Hn.
    apply set_values_lookup_other. intros H. apply Hn.
    now apply cleared_names_in_table.
Qed.

Lemma changed_twice (f g : string) (r : gmap string (gmap string string))
    (vf vs : gmap string string) :
  r !! FONTS_KEY_PATH = Some vf ->
  r !! FONT_SUBSTITUTES_KEY_PATH = Some vs ->
  changed_registry g (changed_registry f r) = changed_registry g r.
Proof.
  intros Hf Hs. apply map_eq. intros k.
  destruct (string_dec k FONTS_KEY_PATH) as [->|Hk1].
  - rewrite (changed_registry_fonts g _ _ (changed_registry_fonts f r vf Hf)).
    rewrite (changed_registry_fonts g r vf Hf).
    now rewrite (set_values_idempotent _ _ cleared_names_NoDup).
  - destruct (string_dec k FONT_SUBSTITUTES_KEY_PATH) as [->|Hk2].
    + rewrite (changed_registry_substitutes g _ _
                 (changed_registry_substitutes f r vs Hs)).
      rewrite (changed_registry_substitutes g r vs Hs).
      now rewrite insert_insert_eq.
    + now rewrite !changed_registry_other.
Qed.

Lemma restored_after_changed (f : string) (r : gmap string (gmap string string))
    (vf vs : gmap string string) :
  r !! FONTS_KEY_PATH = Some vf ->
  r !! FONT_SUBSTITUTES_KEY_PATH = Some vs ->
  restored_registry (changed_registry f r) = restored_registry r.
Proof.
  intros Hf Hs. apply map_eq. intros k.
  destruct (string_dec k FONTS_KEY_PATH) as [->|Hk1].
  - rewrite (restored_registry_fonts _ _ (changed_registry_fonts f r vf Hf)).
    rewrite (restored_registry_fonts r vf Hf).
    now rewrite restore_over_cleared.
  - destruct (string_dec k FONT_SUBSTITUTES_KEY_PATH) as [->|Hk2].
    + rewrite (restored_registry_substitutes _ _
                 (changed_registry_substitutes f r vs Hs)).
      rewrite (restored_registry_substitutes r vs Hs).
      now rewrite delete_insert_eq.
    + rewrite !restored_registry_other by assumption.
      now apply changed_registry_other.
Qed.

Lemma restored_default (r : gmap string (gmap string string))
    (vf vs : gmap string string) :
  r !! FONTS_KEY_PATH = Some vf ->
  r !! FONT_SUBSTITUTES_KEY_PATH = Some vs ->
  Forall (fun entry => vf !! fst entry = Some (snd entry)) SEGOE_UI_FONTS ->
  vs !! "Segoe UI" = None ->
  restored_registry r = r.
Proof.
  intros Hf Hs Htable Habsent. apply map_eq. intros k.
  destruct (string_dec k FONTS_KEY_PATH) as [->|Hk1].
  - rewrite (restored_registry_fonts r vf Hf), Hf. f_equal.
    apply map_eq. intros name.
    destruct (in_dec string_dec name (map fst SEGOE_UI_FONTS)) as [Hin|Hn].
    + apply in_map_iff in Hin as [[n d] [E Hin]]. cbn in E; subst n.
      rewrite (set_values_lookup SEGOE_UI_FONTS _ name d table_names_NoDup Hin).
      rewrite Forall_forall in Htable. symmetry.
      apply (Htable (name, d)). now apply list_elem_of_In.
    + now apply set_values_lookup_other.
  - destruct (string_dec k FONT_SUBSTITUTES_KEY_PATH) as [->|Hk2].
    + rewrite (restored_registry_substitutes r vs Hs), Hs.
      now rewrite (delete_id _ _ Habsent).
    + now apply restored_registry_other.
Qed.

Lemma change_font_run_unrefused (self : FontManager) (font_name : string)
    (w : World) (vf vs : gmap string string) :
  nothing_refused w ->
  registry w !! FONTS_KEY_PATH = Some vf ->
  registry w !! FONT_SUBSTITUTES_KEY_PATH = Some vs ->
  fst (change_font self font_name w) = Ok (true, change_font_message font_name)
  /\ registry (snd (change_font self font_name w))
     = changed_registry font_name (registry w)
  /\ faults (snd (change_font self font_name w)) = faults w.
Proof.
  intros Hn Hf Hs.
  rewrite (change_font_success self font_name w vf vs); try assumption.
  - cbn [fst snd registry faults set_registry after_calls].
    split; [reflexivity|]. split; [reflexivity|]. apply backup_faults.
  - now apply backup_unrefused.
  - intros c _. apply Hn.
Qed.

Lemma restore_default_font_run_unrefused (self : FontManager) (w : World)
    (vf vs : gmap string string) :
  writes_permitted w ->
  registry w !! FONTS_KEY_PATH = Some vf ->
  registry w !! FONT_SUBSTITUTES_KEY_PATH = Some vs ->
  fst (restore_default_font self w) = Ok (true, restore_message)
  /\ registry (snd (restore_default_font self w)) = restored_registry (registry w)
  /\ faults (snd (restore_default_font self w)) = faults w
  /\ files (snd (restore_default_font self w)) = files w.
Proof.
  intros Hp Hf Hs. rewrite (restore_default_font_run self w vf vs Hp Hf Hs).
  cbn [fst snd registry faults files set_registry after_calls]. repeat split.
Qed.

(** X3.  Round trip.  After a [change_font] that nothing refuses,
    [get_current_font] returns the font name just set, whatever string it
    is. *)
Theorem change_font_then_get_current_font
    (self : FontManager) (font_name : string) (w : World)
    (vf vs : gmap string string) :
  nothing_refused w ->
  registry w !! FONTS_KEY_PATH = Some vf ->
  registry w !! FONT_SUBSTITUTES_KEY_PATH = Some vs ->
  fst (get_current_font self (snd (change_font self font_name w)))
  = Ok (Some font_name).
Proof.
  intros Hn Hf Hs.
  destruct (change_font_run_unrefused self font_name w vf vs Hn Hf Hs)
    as (_ & Hr & Hfa).
  rewrite get_current_font_run. cbn [fst]. unfold current_override, read_outcome.
  rewrite Hfa, !Hn, Hr, (changed_registry_substitutes font_name _ vs Hs).
  now rewrite lookup_insert_eq.
Qed.

Lemma change_font_then_get_current_font_witness :
  fst (get_current_font self0 (snd (change_font self0 "Arial" world_default)))
  = Ok (Some "Arial").
Proof.
  apply (change_font_then_get_current_font self0 "Arial" world_default
           (list_to_map SEGOE_UI_FONTS) ∅).
  - intros c. reflexivity.
  - exact world_default_fonts.
  - exact world_default_substitutes.
Defined.

(** X4.  The last change wins.  Two changes in a row, with nothing refused,
    leave the registry as the second change alone would. *)
Theorem change_font_twice
    (self : FontManager) (f g : string) (w : World)
    (vf vs : gmap string string) :
  nothing_refused w ->
  registry w !! FONTS_KEY_PATH = Some vf ->
  registry w !! FONT_SUBSTITUTES_KEY_PATH = Some vs ->
  fst (change_font self g (snd (change_font self f w)))
  = Ok (true, change_font_message g)
  /\ registry (snd (change_font self g (snd (change_font self f w))))
     = registry (snd (change_font self g w)).
Proof.
  intros Hn Hf Hs.
  destruct (change_font_run_unrefused self f w vf vs Hn Hf Hs) as (_ & Hr & Hfa).
  destruct (change_font_run_unrefused self g w vf vs Hn Hf Hs) as (_ & Hrg & _).
  destruct (change_font_run_unrefused self g (snd (change_font self f w))
              (set_values cleared_entries vf) (<["Segoe UI" := f]> vs))
    as (H1 & H2 & _).
  - intros c. rewrite Hfa. apply Hn.
  - rewrite Hr. now apply changed_registry_fonts.
  - rewrite Hr. now apply changed_registry_substitutes.
  - split; [exact H1|]. rewrite H2, Hr, Hrg. apply (changed_twice f g _ vf vs Hf Hs).
Qed.

Lemma change_font_twice_witness :
  fst (change_font self0 "Arial" (snd (change_font self0 "Verdana" world_default)))
  = Ok (true, change_font_message "Arial")
  /\ registry (snd (change_font self0 "Arial"
                      (snd (change_font self0 "Verdana" world_default))))
     = registry (snd (change_font self0 "Arial" world_default)).
Proof.
  apply (change_font_twice self0 "Verdana" "Arial" world_default
           (list_to_map SEGOE_UI_FONTS) ∅).
  - intros c. reflexivity.
  - exact world_default_fonts.
  - exact world_default_substitutes.
Defined.

(** X5.  Undo.  With nothing refused, [restore_default_font] after
    [change_font] leaves the registry as [restore_default_font] alone
    would; and when the registry was in the default state before (every
    table entry holds its file name, no override), the two together leave
    it exactly as it was. *)
Theorem change_font_then_restore_default_font
    (self : FontManager) (font_name : string) (w : World)
    (vf vs : gmap string string) :
  nothing_refused w ->
  registry w !! FONTS_KEY_PATH = Some vf ->
  registry w !! FONT_SUBSTITUTES_KEY_PATH = Some vs ->
  let changed := snd (change_font self font_name w) in
  fst (restore_default_font self changed) = Ok (true, restore_message)
  /\ registry (snd (restore_default_font self changed))
     = registry (snd (restore_default_font self w))
  /\ (Forall (fun entry => vf !! fst entry = Some (snd entry)) SEGOE_UI_FONTS ->
      vs !! "Segoe UI" = None ->
      registry (snd (restore_default_font self changed)) = registry w).
Proof.
  intros Hn Hf Hs. cbv zeta.
  destruct (change_font_run_unrefused self font_name w vf vs Hn Hf Hs)
    as (_ & Hr & Hfa).
  destruct (restore_default_font_run_unrefused self w vf vs
              (fun c _ => Hn c) Hf Hs) as (_ & Hrw & _).
  destruct (restore_default_font_run_unrefused self
              (snd (change_font self font_name w))
              (set_values cleared_entries vf) (<["Segoe UI" := font_name]> vs))
    as (H1 & H2 & _).
  - intros c _. rewrite Hfa. apply Hn.
  - rewrite Hr. now apply changed_registry_fonts.
  - rewrite Hr. now apply changed_registry_substitutes.
  - split; [exact H1|].
    assert (E : registry (snd (restore_default_font self
                                 (snd (change_font self font_name w))))
                = restored_registry (registry w)).
    { rewrite H2, Hr. apply (restored_after_changed font_name _ vf vs Hf Hs). }
    split; [now rewrite E, Hrw|].
    intros Htable Habsent. rewrite E.
    apply (restored_default _ vf vs Hf Hs Htable Habsent).
Qed.

Lemma world_default_table :
  Forall (fun entry =>
            (list_to_map SEGOE_UI_FONTS : gmap string string) !! fst entry
            = Some (snd entry))
    SEGOE_UI_FONTS.
Proof.
  apply Forall_forall. intros [n d] Hin. cbn [fst snd].
  apply elem_of_list_to_map_1; [|exact Hin].
  change (NoDup (map fst SEGOE_UI_FONTS)). exact table_names_NoDup.
Defined.

Lemma change_font_then_restore_default_font_witness :
  fst (restore_default_font self0 (snd (change_font self0 "Arial" world_default)))
  = Ok (true, restore_message)
  /\ registry (snd (restore_default_font self0
                      (snd (change_font self0 "Arial" world_default))))
     = registry world_default.
Proof.
  destruct (change_font_then_restore_default_font self0 "Arial" world_default
              (list_to_map SEGOE_UI_FONTS) ∅) as (H1 & _ & H2).
  - intros c. reflexivity.
  - exact world_default_fonts.
  - exact world_default_substitutes.
  - split; [exact H1|]. apply H2; [exact world_default_table | apply lookup_empty].
Defined.

(** X6.  [restore_default_font] that is refused no registry write succeeds
    whether or not an override is set: the [Segoe UI] value is gone from
    the FontSubstitutes key (its other values are kept), every table entry
    holds its file name, [get_current_font] then returns [None], no file is
    written, and a second run changes nothing more. *)
Theorem restore_default_font_removes_override
    (self : FontManager) (w : World) (vf vs : gmap string string) :
  writes_permitted w ->
  registry w !! FONTS_KEY_PATH = Some vf ->
  registry w !! FONT_SUBSTITUTES_KEY_PATH = Some vs ->
  let run := restore_default_font self w in
  fst run = Ok (true, restore_message)
  /\ registry (snd run) !! FONT_SUBSTITUTES_KEY_PATH = Some (delete "Segoe UI" vs)
  /\ registry (snd run) !! FONTS_KEY_PATH = Some (set_values SEGOE_UI_FONTS vf)
  /\ fst (get_current_font self (snd run)) = Ok None
  /\ files (snd run) = files w
  /\ registry (snd (restore_default_font self (snd run))) = registry (snd run).
Proof.
  intros Hp Hf Hs. cbv zeta.
  destruct (restore_default_font_run_unrefused self w vf vs Hp Hf Hs)
    as (H1 & Hr & Hfa & Hfi).
  pose proof (restored_registry_fonts _ vf Hf) as Hf1.
  pose proof (restored_registry_substitutes _ vs Hs) as Hs1.
  split; [exact H1|]. split; [now rewrite Hr|]. split; [now rewrite Hr|].
  split.
  { rewrite get_current_font_run. cbn [fst].
    unfold current_override, read_outcome. rewrite Hr, Hs1, lookup_delete_eq.
    destruct (faults _ (OpenKey_call _ _)); [reflexivity|].
    now destruct (faults _ (QueryValueEx_call _ _)). }
  split; [exact Hfi|].
  destruct (restore_default_font_run_unrefused self (snd (restore_default_font self w))
              (set_values SEGOE_UI_FONTS vf) (delete "Segoe UI" vs))
    as (_ & Hr2 & _).
  - intros c Hc. rewrite Hfa. now apply Hp.
  - now rewrite Hr.
  - now rewrite Hr.
  - rewrite Hr2, Hr. apply (restored_registry_idempotent _ vf vs Hf Hs).
Qed.

Lemma world_arial_fonts :
  registry world_arial !! FONTS_KEY_PATH = Some (list_to_map SEGOE_UI_FONTS).
Proof. unfold world_arial. cbn [registry]. apply lookup_insert_eq. Defined.

Lemma world_arial_substitutes :
  registry world_arial !! FONT_SUBSTITUTES_KEY_PATH = Some {[ "Segoe UI" := "Arial" ]}.
Proof.
  unfold world_arial. cbn [registry].
  rewrite lookup_insert_ne by exact keys_differ. apply lookup_insert_eq.
Defined.

Lemma restore_default_font_removes_override_witness :
  fst (restore_default_font self0 world_arial) = Ok (true, restore_message)
  /\ fst (get_current_font self0 (snd (restore_default_font self0 world_arial)))
     = Ok None.
Proof.
  destruct (restore_default_font_removes_override self0 world_arial
              (list_to_map SEGOE_UI_FONTS) {[ "Segoe UI" := "Arial" ]})
    as (H1 & _ & _ & H2 & _).
  - intros c _. reflexivity.
  - exact world_arial_fonts.
  - exact world_arial_substitutes.
  - split; [exact H1 | exact H2].
Defined.

(** ** What the operations never touch *)

Section Keeps.

Variable P : World -> World -> Prop.
Hypothesis P_refl : forall w, P w w.
Hypothesis P_trans : forall w1 w2 w3, P w1 w2 -> P w2 w3 -> P w1 w3.
(** a registry call that changes no value *)
Hypothesis P_call : forall w c, is_registry_call c = true -> P w (record c w).
(** a change of the values under one of the two font keys *)
Hypothesis P_values :
  forall w sub_key values,
    sub_key = FONTS_KEY_PATH \/ sub_key = FONT_SUBSTITUTES_KEY_PATH ->
    P w (set_registry (<[sub_key := values]> (registry w)) w).

Lemma keeps_ret {A} (a : A) : keeps P (ret a).
Proof. intros w. apply P_refl. Qed.

Lemma keeps_raise {A} (e : exn) : keeps P (@raise A e).
Proof. intros w. apply P_refl. Qed.

Lemma keeps_bind {A B} (m : M A) (k : A -> M B) :
  keeps P m -> (forall a, keeps P (k a)) -> keeps P (bind m k).
Proof.
  intros Hm Hk w. unfold bind. specialize (Hm w).
  destruct (m w) as [[a|e] w1]; cbn [snd] in *; [|exact Hm].
  eapply P_trans; [exact Hm | apply Hk].
Qed.

Lemma keeps_try_except {A} (m : M A) (h : exn -> M A) :
  keeps P m -> (forall e, keeps P (h e)) -> keeps P (try_except m h).
Proof.
  intros Hm Hh w. unfold try_except. specialize (Hm w).
  destruct (m w) as [[a|e] w1]; cbn [snd] in *; [exact Hm|].
  eapply P_trans; [exact Hm | apply Hh].
Qed.

Lemma keeps_try_finally {A} (m : M A) (f : M unit) :
  keeps P m -> keeps P f -> keeps P (try_finally m f).
Proof.
  intros Hm Hf w. unfold try_finally. specialize (Hm w).
  destruct (m w) as [r w1]. specialize (Hf w1).
  destruct (f w1) as [[[]|e] w2]; cbn [snd] in *;
    eapply P_trans; eassumption.
Qed.

Lemma keeps_for_each {A} (l : list A) (body : A -> M unit) :
  (forall x, keeps P (body x)) -> keeps P (for_each l body).
Proof.
  intros Hb. induction l as [|x l IH]; cbn [for_each].
  - apply keeps_ret.
  - apply keeps_bind; [apply Hb | intros _; exact IH].
Qed.

Lemma keeps_OpenKey (sub_key : string) (access : Access) :
  keeps P (winreg.OpenKey sub_key access).
Proof.
  intros w. unfold winreg.OpenKey. cbn [faults registry record].
  destruct (faults w _); [now apply P_call|].
  destruct (registry w !! sub_key); now apply P_call.
Qed.

Lemma keeps_CloseKey (key : HKEY) : keeps P (winreg.CloseKey key).
Proof. intros w. now apply P_call. Qed.

Lemma keeps_QueryValueEx (key : HKEY) (name : string) :
  keeps P (winreg.QueryValueEx key name).
Proof.
  intros w. unfold winreg.QueryValueEx. cbn [faults registry record].
  destruct (faults w _); [now apply P_call|].
  destruct (winreg.access_eqb _ _); [|now apply P_call].
  destruct (_ ≫= _); now apply P_call.
Qed.

Lemma keeps_SetValueEx (key : HKEY) (name data : string) :
  hpath key = FONTS_KEY_PATH \/ hpath key = FONT_SUBSTITUTES_KEY_PATH ->
  keeps P (winreg.SetValueEx key name data).
Proof.
  intros Hk w. unfold winreg.SetValueEx. cbn [faults registry record].
  destruct (faults w _); [now apply P_call|].
  destruct (winreg.access_eqb _ _); [|now apply P_call].
  destruct (registry w !! hpath key) as [vs|]; [|now apply P_call].
  cbn [snd]. eapply P_trans; [|apply (P_values (record _ w)); exact Hk].
  now apply P_call.
Qed.

Lemma keeps_DeleteValue (key : HKEY) (name : string) :
  hpath key = FONTS_KEY_PATH \/ hpath key = FONT_SUBSTITUTES_KEY_PATH ->
  keeps P (winreg.DeleteValue key name).
Proof.
  intros Hk w. unfold winreg.DeleteValue. cbn [faults registry record].
  destruct (faults w _); [now apply P_call|].
  destruct (winreg.access_eqb _ _); [|now apply P_call].
  destruct (registry w !! hpath key) as [vs|]; [|now apply P_call].
  destruct (vs !! name); [|now apply P_call].
  cbn [snd]. eapply P_trans; [|apply (P_values (record _ w)); exact Hk].
  now apply P_call.
Qed.

Lemma keeps_with_OpenKey {A} (sub_key : string) (access : Access)
    (body : HKEY -> M A) :
  keeps P (body {| hpath := sub_key; haccess := access |}) ->
  keeps P (winreg.with_OpenKey sub_key access body).
Proof.
  intros Hb w. unfold winreg.with_OpenKey, bind.
  pose proof (keeps_OpenKey sub_key access w) as Ho.
  unfold winreg.OpenKey in *. cbn [faults registry record] in *.
  destruct (faults w _); [exact Ho|].
  destruct (registry w !! sub_key); [|exact Ho].
  cbn [snd] in Ho. eapply P_trans; [exact Ho|].
  apply keeps_try_finally; [exact Hb | apply keeps_CloseKey].
Qed.

Lemma keeps_restore_default_font (self : FontManager) :
  keeps P (restore_default_font self).
Proof.
  unfold restore_default_font, restore_default_font_try.
  apply keeps_try_except.
  - apply keeps_bind.
    + apply keeps_with_OpenKey, keeps_for_each. intros [n d].
      apply keeps_SetValueEx. now left.
    + intros _. apply keeps_bind; [|intros _; apply keeps_ret].
      apply keeps_with_OpenKey, keeps_try_except.
      * apply keeps_DeleteValue. now right.
      * intros []; first [apply keeps_ret | apply keeps_raise].
  - intros []; apply keeps_ret.
Qed.

Lemma keeps_change_font (self : FontManager) (font_name : string) :
  keeps P (backup_current_settings self) ->
  keeps P (change_font self font_name).
Proof.
  intros Hb. unfold change_font, change_font_try.
  apply keeps_try_except.
  - apply keeps_bind; [exact Hb|]. intros _. apply keeps_bind.
    + apply keeps_with_OpenKey, keeps_for_each. intros font_entry.
      destruct (Str.contains _ _); [|apply keeps_ret].
      apply keeps_SetValueEx. now left.
    + intros _. apply keeps_bind; [|intros _; apply keeps_ret].
      apply keeps_with_OpenKey, keeps_SetValueEx. now right.
  - intros []; apply keeps_ret.
Qed.

Lemma keeps_get_current_font (self : FontManager) :
  keeps P (get_current_font self).
Proof.
  unfold get_current_font. apply keeps_try_except; [|intros _; apply keeps_ret].
  apply keeps_with_OpenKey, keeps_try_except.
  - apply keeps_bind; [apply keeps_QueryValueEx | intros v; apply keeps_ret].
  - intros []; first [apply keeps_ret | apply keeps_raise].
Qed.

End Keeps.

Lemma registry_calls_only_refl (w : World) : registry_calls_only w w.
Proof.
  split; [reflexivity|]. split; [reflexivity|].
  exists []. now rewrite app_nil_r.
Qed.

Lemma registry_calls_only_trans (w1 w2 w3 : World) :
  registry_calls_only w1 w2 -> registry_calls_only w2 w3 ->
  registry_calls_only w1 w3.
Proof.
  intros (Hf1 & Ha1 & cs1 & Hc1 & Hr1) (Hf2 & Ha2 & cs2 & Hc2 & Hr2).
  split; [congruence|]. split; [congruence|].
  exists (cs1 ++ cs2). rewrite Hc2, Hc1, <- app_assoc. split; [reflexivity|].
  rewrite forallb_app, Hr1, Hr2. reflexivity.
Qed.

Lemma registry_calls_only_call (w : World) (c : Call) :
  is_registry_call c = true -> registry_calls_only w (record c w).
Proof.
  intros Hc. split; [reflexivity|]. split; [reflexivity|].
  exists [c]. split; [reflexivity|]. cbn [forallb]. now rewrite Hc.
Qed.

Lemma registry_calls_only_values (w : World) (sub_key : string)
    (values : gmap string string) :
  sub_key = FONTS_KEY_PATH \/ sub_key = FONT_SUBSTITUTES_KEY_PATH ->
  registry_calls_only w (set_registry (<[sub_key := values]> (registry w)) w).
Proof.
  intros _. split; [reflexivity|]. split; [reflexivity|].
  exists []. cbn [calls set_registry]. now rewrite app_nil_r.
Qed.

(** X7.  [restore_default_font] writes no file, whatever the system refuses
    and however the operation ends: the files are as they were, and every
    call it makes is a registry call.  (The backup is written by
    [change_font] only.) *)
Theorem restore_default_font_writes_no_file (self : FontManager) (w : World) :
  files (snd (restore_default_font self w)) = files w
  /\ exists cs,
       calls (snd (restore_default_font self w)) = calls w ++ cs
       /\ forallb is_registry_call cs = true.
Proof.
  destruct (keeps_restore_default_font registry_calls_only
              registry_calls_only_refl registry_calls_only_trans
              registry_calls_only_call registry_calls_only_values self w)
    as (Hf & _ & Hc).
  split; assumption.
Qed.

Lemma other_keys_kept_refl (w : World) : other_keys_kept w w.
Proof. now intros k _ _. Qed.

Lemma other_keys_kept_trans (w1 w2 w3 : World) :
  other_keys_kept w1 w2 -> other_keys_kept w2 w3 -> other_keys_kept w1 w3.
Proof. intros H1 H2 k Ha Hb. now rewrite H2, H1. Qed.

Lemma other_keys_kept_call (w : World) (c : Call) :
  is_registry_call c = true -> other_keys_kept w (record c w).
Proof. now intros _ k _ _. Qed.

Lemma other_keys_kept_values (w : World) (sub_key : string)
    (values : gmap string string) :
  sub_key = FONTS_KEY_PATH \/ sub_key = FONT_SUBSTITUTES_KEY_PATH ->
  other_keys_kept w (set_registry (<[sub_key := values]> (registry w)) w).
Proof.
  intros Hk k Ha Hb. cbn [registry set_registry].
  apply lookup_insert_ne. destruct Hk as [-> | ->]; congruence.
Qed.

Lemma other_keys_kept_backup (self : FontManager) :
  keeps other_keys_kept (backup_current_settings self).
Proof. intros w k _ _. now rewrite backup_registry. Qed.

(** X8.  [change_font] and [restore_default_font] touch two registry keys
    only.  Whatever the system refuses and however they end, every key
    other than Fonts and FontSubstitutes holds what it held. *)
Theorem only_the_font_keys_change
    (self : FontManager) (font_name : string) (w : World) (sub_key : string) :
  sub_key <> FONTS_KEY_PATH ->
  sub_key <> FONT_SUBSTITUTES_KEY_PATH ->
  registry (snd (change_font self font_name w)) !! sub_key = registry w !! sub_key
  /\ registry (snd (restore_default_font self w)) !! sub_key = registry w !! sub_key.
Proof.
  intros H1 H2. split.
  - apply (keeps_change_font other_keys_kept
             other_keys_kept_refl other_keys_kept_trans
             other_keys_kept_call other_keys_kept_values self font_name
             (other_keys_kept_backup self) w sub_key H1 H2).
  - apply (keeps_restore_default_font other_keys_kept
             other_keys_kept_refl other_keys_kept_trans
             other_keys_kept_call other_keys_kept_values self w sub_key H1 H2).
Qed.

Lemma only_the_font_keys_change_witness :
  registry (snd (change_font self0 "Arial" world_default)) !! "SOFTWARE"
  = registry world_default !! "SOFTWARE"
  /\ registry (snd (restore_default_font self0 world_default)) !! "SOFTWARE"
     = registry world_default !! "SOFTWARE".
Proof.
  apply (only_the_font_keys_change self0 "Arial" world_default "SOFTWARE").
  - apply String.eqb_neq. reflexivity.
  - apply String.eqb_neq. reflexivity.
Defined.

Lemma files_kept_except_refl (path : Path) (w : World) :
  files_kept_except path w w.
Proof. now intros p _. Qed.

Lemma files_kept_except_trans (path : Path) (w1 w2 w3 : World) :
  files_kept_except path w1 w2 -> files_kept_except path w2 w3 ->
  files_kept_except path w1 w3.
Proof. intros H1 H2 p Hp. now rewrite H2, H1. Qed.

Lemma files_kept_except_call (path : Path) (w : World) (c : Call) :
  is_registry_call c = true -> files_kept_except path w (record c w).
Proof. now intros _ p _. Qed.

Lemma files_kept_except_values (path : Path) (w : World) (sub_key : string)
    (values : gmap string string) :
  sub_key = FONTS_KEY_PATH \/ sub_key = FONT_SUBSTITUTES_KEY_PATH ->
  files_kept_except path w (set_registry (<[sub_key := values]> (registry w)) w).
Proof. now intros _ p _. Qed.

Lemma files_kept_except_backup (self : FontManager) :
  keeps (files_kept_except (_backup_file self)) (backup_current_settings self).
Proof.
  intros w p Hp. rewrite backup_files.
  destruct (faults w _); [reflexivity|].
  destruct (fst (write_bytes _ _ _ _)); apply lookup_insert_ne; congruence.
Qed.

(** X9.  The only file [change_font] can write is the backup file.
    Whatever the system refuses and however the operation ends, every
    other path holds what it held. *)
Theorem change_font_writes_only_the_backup
    (self : FontManager) (font_name : string) (w : World) (p : Path) :
  p <> _backup_file self ->
  files (snd (change_font self font_name w)) !! p = files w !! p.
Proof.
  intros Hp.
  apply (keeps_change_font (files_kept_except (_backup_file self))
           (files_kept_except_refl _) (files_kept_except_trans _)
           (files_kept_except_call _) (files_kept_except_values _)
           self font_name (files_kept_except_backup self) w p Hp).
Qed.

Lemma change_font_writes_only_the_backup_witness :
  files (snd (change_font self0 "Arial" world_default)) !! "export.reg"
  = files world_default !! "export.reg".
Proof.
  apply (change_font_writes_only_the_backup self0 "Arial" world_default "export.reg").
  apply String.eqb_neq. reflexivity.
Defined.

(** ** The backup and the export *)

(** X10.  The backup that [change_font] takes describes the registry before
    the change.  After a successful [change_font], the backup file holds
    the UTF-16LE encoding of the document built from the world the
    operation started in; when an override [g] (not empty) was in effect,
    the document has the line that sets [Segoe UI] to [g], whatever the new
    font name is. *)
Theorem change_font_backup_holds_previous_override
    (self : FontManager) (font_name : string) (w : World)
    (vf vs : gmap string string) (c : ascii) (g : string) :
  fst (backup_current_settings self w) = Ok tt ->
  writes_permitted w ->
  registry w !! FONTS_KEY_PATH = Some vf ->
  registry w !! FONT_SUBSTITUTES_KEY_PATH = Some vs ->
  files (snd (change_font self font_name w)) !! _backup_file self
  = Some (Str.utf_16_le (Str.os_newlines (backup_document w)))
  /\ Str.utf_16_le_decode (Str.utf_16_le (Str.os_newlines (backup_document w)))
     = Some (Str.os_newlines (backup_document w))
  /\ (current_override w = Some (String c g) ->
      Str.contains (substitute_line (String c g)) (backup_document w) = true).
Proof.
  intros Hb Hp Hf Hs.
  rewrite (change_font_success self font_name w vf vs Hb Hp Hf Hs).
  cbn [snd files set_registry after_calls].
  split; [now apply backup_file_written|].
  split; [apply utf_16_le_roundtrip|].
  intros Ho. unfold backup_document. apply join_contains.
  destruct (backup_lines_sections (fonts_key_readable w) (current_override w))
    as (_ & _ & H).
  rewrite Ho in H. rewrite Ho. exact H.
Qed.

Lemma current_override_arial : current_override world_arial = Some "Arial".
Proof.
  unfold current_override, read_outcome. rewrite world_arial_substitutes.
  cbn [faults world_arial no_faults]. now rewrite lookup_singleton_eq.
Defined.

Lemma change_font_backup_holds_previous_override_witness :
  files (snd (change_font self0 "Verdana" world_arial)) !! _backup_file self0
  = Some (Str.utf_16_le (Str.os_newlines (backup_document world_arial)))
  /\ Str.contains (substitute_line "Arial") (backup_document world_arial) = true.
Proof.
  destruct (change_font_backup_holds_previous_override self0 "Verdana" world_arial
              (list_to_map SEGOE_UI_FONTS) {[ "Segoe UI" := "Arial" ]} "A" "rial")
    as (Hfile & _ & H).
  - apply backup_unrefused. intros c. reflexivity.
  - intros c _. reflexivity.
  - exact world_arial_fonts.
  - exact world_arial_substitutes.
  - split; [exact Hfile|]. apply H. exact current_override_arial.
Defined.




(** ** [get_system_fonts] *)

Lemma insert_sorted_Permutation (x : string) (l : list string) :
  Permutation (x :: l) (insert_sorted x l).
Proof.
  induction l as [|y l IH]; cbn [insert_sorted]; [reflexivity|].
  destruct (String.leb x y); [reflexivity|].
  rewrite perm_swap. now apply perm_skip.
Qed.

Lemma sorted_Permutation (l : list string) : Permutation l (sorted l).
Proof.
  induction l as [|x l IH]; [reflexivity|].
  cbn [sorted fold_right]. fold (sorted l).
  rewrite <- insert_sorted_Permutation. now apply perm_skip.
Qed.

Lemma leb_false_flip (x y : string) :
  String.leb x y = false -> String.leb y x = true.
Proof. intros H. destruct (String.leb_total x y); congruence. Qed.

Lemma insert_sorted_Sorted (x : string) (l : list string) :
  Sorted (fun a b => String.leb a b = true) l ->
  Sorted (fun a b => String.leb a b = true) (insert_sorted x l).
Proof.
  induction l as [|y l IH]; intros Hs; cbn [insert_sorted].
  - repeat constructor.
  - destruct (String.leb x y) eqn:E.
    + constructor; [exact Hs | now constructor].
    + inversion Hs as [|? ? Hs' Hd]; subst. constructor; [now apply IH|].
      destruct l as [|z l]; cbn [insert_sorted].
      * constructor. now apply leb_false_flip.
      * destruct (String.leb x z).
        -- constructor. now apply leb_false_flip.
        -- inversion Hd; subst. now constructor.
Qed.

Lemma sorted_Sorted (l : list string) :
  Sorted (fun a b => String.leb a b = true) (sorted l).
Proof.
  induction l as [|x l IH]; [constructor|].
  cbn [sorted fold_right]. now apply insert_sorted_Sorted.
Qed.

Lemma sorted_fixed (l : list string) :
  Sorted (fun a b => String.leb a b = true) l -> sorted l = l.
Proof.
  induction l as [|x l IH]; intros Hs; [reflexivity|].
  inversion Hs as [|? ? Hs' Hd]; subst.
  cbn [sorted fold_right]. fold (sorted l). rewrite (IH Hs').
  destruct l as [|y l]; [reflexivity|]. cbn [insert_sorted].
  inversion Hd as [|? ? Hxy]; subst. now rewrite Hxy.
Qed.

(** X12.  [get_system_fonts] returns the families it is given in ascending
    order of their code points: the result is a rearrangement of the input
    (nothing dropped, nothing added, duplicates kept), each name is at most
    the next, and sorting the result again changes nothing.  On the
    families of the repository's test it gives Arial, Calibri, Times New
    Roman. *)
Theorem get_system_fonts_sorted (self : FontManager) (families : list string) :
  Permutation families (get_system_fonts self families)
  /\ Sorted (fun a b => String.leb a b = true) (get_system_fonts self families)
  /\ length (get_system_fonts self families) = length families
  /\ get_system_fonts self (get_system_fonts self families)
     = get_system_fonts self families
  /\ get_system_fonts self ["Arial"; "Times New Roman"; "Calibri"]
     = ["Arial"; "Calibri"; "Times New Roman"].
Proof.
  unfold get_system_fonts.
  split; [apply sorted_Permutation|].
  split; [apply sorted_Sorted|].
  split; [symmetry; apply Permutation_length, sorted_Permutation|].
  split; [apply sorted_fixed, sorted_Sorted|].
  vm_compute. reflexivity.
Qed.

(** ** The label of the window *)

Lemma update_current_font_label_run (self : FontManager) (w : World) :
  fst (update_current_font_label self w)
  = Ok match current_override w with
       | Some (String c s) => "Current system font: " +:+ String c s
       | _ => "Current system font: Segoe UI (Default)"
       end.
Proof.
  unfold update_current_font_label, bind. rewrite get_current_font_run.
  now destruct (current_override w) as [[|c s]|].
Qed.

Lemma current_override_after_change (self : FontManager) (font_name : string)
    (w : World) (vf vs : gmap string string) :
  nothing_refused w ->
  registry w !! FONTS_KEY_PATH = Some vf ->
  registry w !! FONT_SUBSTITUTES_KEY_PATH = Some vs ->
  current_override (snd (change_font self font_name w)) = Some font_name.
Proof.
  intros Hn Hf Hs.
  destruct (change_font_run_unrefused self font_name w vf vs Hn Hf Hs)
    as (_ & Hr & Hfa).
  unfold current_override, read_outcome.
  rewrite Hfa, !Hn, Hr, (changed_registry_substitutes font_name _ vs Hs).
  now rewrite lookup_insert_eq.
Qed.

Lemma current_override_after_restore (self : FontManager) (w : World)
    (vf vs : gmap string string) :
  writes_permitted w ->
  registry w !! FONTS_KEY_PATH = Some vf ->
  registry w !! FONT_SUBSTITUTES_KEY_PATH = Some vs ->
  current_override (snd (restore_default_font self w)) = None.
Proof.
  intros Hp Hf Hs.
  destruct (restore_default_font_run_unrefused self w vf vs Hp Hf Hs)
    as (_ & Hr & _).
  unfold current_override, read_outcome.
  rewrite Hr, (restored_registry_substitutes _ vs Hs), lookup_delete_eq.
  destruct (faults _ (OpenKey_call _ _)); [reflexivity|].
  now destruct (faults _ (QueryValueEx_call _ _)).
Qed.

(** X13.  What the window shows after the worker has run.  After a change
    to a non-empty font name that nothing refuses, the label names that
    font; after a restore that is refused no registry write, the label
    names the default font, Segoe UI. *)
Theorem label_after_worker_run
    (self : FontManager) (c : ascii) (s : string) (w : World)
    (vf vs : gmap string string) :
  nothing_refused w ->
  registry w !! FONTS_KEY_PATH = Some vf ->
  registry w !! FONT_SUBSTITUTES_KEY_PATH = Some vs ->
  fst (update_current_font_label self (snd (worker_run self (String c s) false w)))
  = Ok ("Current system font: " +:+ String c s)
  /\ fst (update_current_font_label self (snd (worker_run self "" true w)))
     = Ok "Current system font: Segoe UI (Default)".
Proof.
  intros Hn Hf Hs. cbn [worker_run]. rewrite !update_current_font_label_run.
  rewrite (current_override_after_change self (String c s) w vf vs Hn Hf Hs).
  rewrite (current_override_after_restore self w vf vs (fun c' _ => Hn c') Hf Hs).
  split; reflexivity.
Qed.

Lemma label_after_worker_run_witness :
  fst (update_current_font_label self0 (snd (worker_run self0 "Arial" false world_arial)))
  = Ok "Current system font: Arial"
  /\ fst (update_current_font_label self0 (snd (worker_run self0 "" true world_arial)))
     = Ok "Current system font: Segoe UI (Default)".
Proof.
  apply (label_after_worker_run self0 "A" "rial" world_arial
           (list_to_map SEGOE_UI_FONTS) {[ "Segoe UI" := "Arial" ]}).
  - intros c. reflexivity.
  - exact world_arial_fonts.
  - exact world_arial_substitutes.
Defined.

(** ** More on the backup and on the values kept *)

Lemma read_calls_no_write (w : World) :
  forallb (fun c => negb (is_write_call c)) (read_calls w) = true.
Proof. unfold read_calls. now destruct (read_outcome w). Qed.

Lemma fonts_read_calls_no_write (w : World) :
  forallb (fun c => negb (is_write_call c)) (fonts_read_calls w) = true.
Proof. unfold fonts_read_calls. now destruct (fonts_key_readable w). Qed.

(** X14.  [backup_current_settings] only reads the registry: for every
    world, the registry is as it was and none of its calls opens a key for
    writing, sets or deletes a value.  No file other than the backup file
    changes.  A failure of the file write, at the open or while the bytes
    are written, is not swallowed: the exception is raised.  When the write
    is accepted the backup file is replaced by the encoded document. *)
Theorem backup_reads_registry_and_writes_one_file
    (self : FontManager) (w : World) :
  let run := backup_current_settings self w in
  registry (snd run) = registry w
  /\ (exists cs,
        calls (snd run) = calls w ++ cs
        /\ forallb (fun c => negb (is_write_call c)) cs = true)
  /\ delete (_backup_file self) (files (snd run))
     = delete (_backup_file self) (files w)
  /\ match faults w (write_text_call (_backup_file self) (backup_document w)) with
     | Some e => fst run = Raise e
     | None =>
         match fst (write_bytes (faults w) (_backup_file self) 0
                      (Str.utf_16_le (Str.os_newlines (backup_document w)))) with
         | Some e => fst run = Raise e
         | None =>
             fst run = Ok tt
             /\ files (snd run)
                = <[_backup_file self :=
                      Str.utf_16_le (Str.os_newlines (backup_document w))]> (files w)
         end
     end.
Proof.
  cbv zeta. split; [apply backup_registry|]. split.
  - exists (fonts_read_calls w ++ read_calls w
            ++ [write_text_call (_backup_file self) (backup_document w)]).
    split; [apply backup_calls|].
    rewrite !forallb_app, fonts_read_calls_no_write, read_calls_no_write.
    reflexivity.
  - split; [apply backup_other_files|].
    rewrite backup_result, backup_files.
    destruct (faults w _); [reflexivity|].
    now destruct (fst (write_bytes _ _ _ _)).
Qed.

Lemma cleared_names_segoe_ui (name : string) :
  In name (map fst cleared_entries) ->
  In name (map fst SEGOE_UI_FONTS) /\ Str.contains "Segoe UI" name = true.
Proof.
  unfold cleared_entries, segoe_ui_entries. rewrite map_map. cbn [fst].
  rewrite map_id. intros H. now apply filter_In in H.
Qed.

(** X15.  A successful [change_font] changes nothing else under the two
    keys: under Fonts, every value whose name is not a table entry
    containing [Segoe UI] (the five other Segoe fonts, and any font outside
    the table) holds what it held; under FontSubstitutes, every value other
    than [Segoe UI] holds what it held. *)
Theorem change_font_keeps_other_values
    (self : FontManager) (font_name : string) (w : World)
    (vf vs : gmap string string) (name : string) :
  fst (backup_current_settings self w) = Ok tt ->
  writes_permitted w ->
  registry w !! FONTS_KEY_PATH = Some vf ->
  registry w !! FONT_SUBSTITUTES_KEY_PATH = Some vs ->
  let after := registry (snd (change_font self font_name w)) in
  (~ (In name (map fst SEGOE_UI_FONTS) /\ Str.contains "Segoe UI" name = true) ->
   after !! FONTS_KEY_PATH ≫= (fun values => values !! name) = vf !! name)
  /\ (name <> "Segoe UI" ->
      after !! FONT_SUBSTITUTES_KEY_PATH ≫= (fun values => values !! name)
      = vs !! name).
Proof.
  intros Hb Hp Hf Hs. cbv zeta.
  rewrite (change_font_success self font_name w vf vs Hb Hp Hf Hs).
  cbn [snd registry set_registry after_calls].
  rewrite (changed_registry_fonts font_name _ vf Hf).
  rewrite (changed_registry_substitutes font_name _ vs Hs).
  cbn [mbind option_bind]. split.
  - intros Hn. apply set_values_lookup_other. intros Hin. apply Hn.
    now apply cleared_names_segoe_ui.
  - intros Hn. apply lookup_insert_ne. congruence.
Qed.

Lemma change_font_keeps_other_values_witness :
  registry (snd (change_font self0 "Arial" world_default)) !! FONTS_KEY_PATH
    ≫= (fun values => values !! "Segoe Print (TrueType)")
  = (list_to_map SEGOE_UI_FONTS : gmap string string) !! "Segoe Print (TrueType)".
Proof.
  destruct (change_font_keeps_other_values self0 "Arial" world_default
              (list_to_map SEGOE_UI_FONTS) ∅ "Segoe Print (TrueType)")
    as (H & _).
  - rewrite backup_result. reflexivity.
  - intros c _. reflexivity.
  - exact world_default_fonts.
  - exact world_default_substitutes.
  - apply H. intros [_ Hc]. vm_compute in Hc. discriminate.
Defined.
